(** * BytePS process-wide coordination layer (byteps/common/global.cc)

  A shallow embedding of the scheduled queues, the runtime singleton,
  tensor registration and partitioning, and key-to-server encoding,
  followed by the properties established about them. *)

From Stdlib Require Import ZArith Lia List Ascii String.
From Stdlib Require Import DecimalString DecimalPos.
From stdpp Require Import gmap strings list fin_maps pretty.

Local Open Scope Z_scope.

(** ** Machine integers

  The source mixes [int], [unsigned int]/[uint32_t] and
  [size_t]/[ps::Key] (64 bit).  Values are carried as [Z]; every
  conversion and every wrap-around of the C++ code is written out. *)

Module MachineInt.

Definition INT_MAX : Z := 2147483647.
Definition INT_MIN : Z := -2147483648.

(** Value of an [unsigned int] / [uint32_t] expression. *)
Definition wrap32 (z : Z) : Z := z mod 2 ^ 32.

(** Value of a [size_t] / [uint64_t] expression. *)
Definition wrap64 (z : Z) : Z := z mod 2 ^ 64.

(** Conversion of an integer value to [int] (two's complement). *)
Definition to_int (z : Z) : Z :=
  let r := z mod 2 ^ 32 in
  if r <? 2 ^ 31 then r else r - 2 ^ 32.

(** Is the mathematical result of a signed [int] operation representable? *)
Definition in_int_range (z : Z) : bool := (INT_MIN <=? z) && (z <=? INT_MAX).

End MachineInt.
Import MachineInt.

(** ** Outcomes of a call

  [Ok] is a normal return.  [Fatal] is a failed [BPS_CHECK_*]
  ([InvariantViolation]) or [CUDA_CALL] ([CudaError]): the process is taken
  down with a message.  Nothing in global.cc produces [EmptyQueueError];
  the kind is there so that statements about it can be written.  [Undefined] marks
  an execution to which C++ assigns no behaviour ([front()] of an empty
  container, signed overflow, indexing past a vector, flowing off the end
  of a function that has to return a value).  [OutOfFuel] is the
  loop budget of the model running out. *)

Inductive Error : Type :=
| InvariantViolation
| CudaError
| EmptyQueueError.

Inductive Outcome (A : Type) : Type :=
| Ok (a : A)
| Fatal (e : Error)
| Undefined
| OutOfFuel.

Arguments Ok {A} a.
Arguments Fatal {A} e.
Arguments Undefined {A}.
Arguments OutOfFuel {A}.

#[global] Instance Outcome_bind : MBind Outcome := fun A B k o =>
  match o with
  | Ok a => k a
  | Fatal e => Fatal e
  | Undefined => Undefined
  | OutOfFuel => OutOfFuel
  end.

#[global] Instance Outcome_ret : MRet Outcome := fun A a => Ok a.

(** ** BytePSScheduledQueue (global.cc lines 22-49)

  [_sq] is the sequence container of the queue, head first.  Every member
  function holds [_mutex] for its whole body, so each one is a single
  atomic transition of the queue. *)

Module ScheduledQueue.
Section Queue.

(** The queue stores [std::shared_ptr<TensorTableEntry>]; it never looks
    inside an entry. *)
Variable TensorTableEntry : Type.

Record BytePSScheduledQueue : Type := mkQueue {
  _sq : list TensorTableEntry;
  _finished : Z
}.

Definition new_queue : BytePSScheduledQueue := mkQueue [] 0.

Definition addTask (entry : TensorTableEntry) (q : BytePSScheduledQueue)
  : BytePSScheduledQueue :=
  mkQueue (_sq q ++ [entry]) (_finished q).

Definition getTask (q : BytePSScheduledQueue)
  : Outcome (TensorTableEntry * BytePSScheduledQueue) :=
  match _sq q with
  | [] => Undefined
  | front :: rest => Ok (front, mkQueue rest (_finished q))
  end.

Definition peekTask (q : BytePSScheduledQueue) : Outcome TensorTableEntry :=
  match _sq q with
  | [] => Undefined
  | front :: _ => Ok front
  end.

Definition pendingSize (q : BytePSScheduledQueue) : Z :=
  wrap32 (Z.of_nat (length (_sq q))).

(** The declaration of [_finished] is in global.h; it is only ever counted up. *)
Definition reportFinish (e : TensorTableEntry) (q : BytePSScheduledQueue)
  : BytePSScheduledQueue :=
  mkQueue (_sq q) (_finished q + 1).

(** [K] producers' calls, in the order in which they took the lock. *)
Definition addTasks (es : list TensorTableEntry) (q : BytePSScheduledQueue)
  : BytePSScheduledQueue :=
  fold_left (fun q' e => addTask e q') es q.

(** [J] consecutive [getTask] calls; the entries come back in call order. *)
Fixpoint getTasks (J : nat) (q : BytePSScheduledQueue)
  : Outcome (list TensorTableEntry * BytePSScheduledQueue) :=
  match J with
  | O => Ok ([], q)
  | S J' =>
      '(e, q') ← getTask q;
      '(es, q'') ← getTasks J' q';
      Ok (e :: es, q'')
  end.

End Queue.

Arguments mkQueue {TensorTableEntry} _ _.
Arguments _sq {TensorTableEntry} _.
Arguments _finished {TensorTableEntry} _.
Arguments new_queue {TensorTableEntry}.
Arguments addTask {TensorTableEntry} _ _.
Arguments getTask {TensorTableEntry} _.
Arguments peekTask {TensorTableEntry} _.
Arguments pendingSize {TensorTableEntry} _.
Arguments reportFinish {TensorTableEntry} _ _.
Arguments addTasks {TensorTableEntry} _ _.
Arguments getTasks {TensorTableEntry} _ _.

End ScheduledQueue.

(** ** Collaborators and constants declared outside global.cc

  [CPU_DEVICE_ID] and [QueueNum] come from headers, [cudaHostAlloc] from the
  CUDA runtime: a request for [size] bytes of pinned host memory answers
  with a pointer, or fails (and [CUDA_CALL] then ends the process).

  [missing_return_is_benign] is a fact about the build, not about the
  language.  [CreateScheduledQueue] (lines 79-84) is declared [void*] and
  has no [return] statement, so control flows off the end of a value
  returning function on every call; C++ gives such a call no defined
  behaviour.  A build in which the call nevertheless comes back to its
  caller with the work of its body done sets the field to [true]; for any
  other build it is [false], and every call is [Undefined]. *)

Record Platform : Type := mkPlatform {
  CPU_DEVICE_ID : Z;
  QueueNum : nat;
  cudaHostAlloc : Z -> option Z;
  missing_return_is_benign : bool
}.

(** The enumerators that [ConvertBoundToBytes] distinguishes. *)
Inductive DataType : Type :=
| BYTEPS_UINT8
| BYTEPS_INT8
| BYTEPS_FLOAT16
| BYTEPS_FLOAT32
| BYTEPS_INT32
| BYTEPS_FLOAT64
| BYTEPS_INT64.

(** Modelled from the spec: the struct BPSContext is declared in a header
  that is not part of the sources at hand.  A tensor context holds the
  ordered partition keys, an optional staging buffer and its length; a
  context created by [operator[]] is value-initialised: no keys, no buffer,
  length zero. *)
Record BPSContext : Type := mkContext {
  key_list : list Z;
  cpubuff : option Z;
  buff_len : Z
}.

Definition empty_context : BPSContext := mkContext [] None 0.

(** Modelled from the spec: the struct PSKV is declared in a header that is
  not part of the sources at hand.  [keys] are the wire keys, [lens] the
  value lengths, [size] the byte length stored at first assignment.  The
  source reads [size] back through [static_cast<size_t>], so the field is
  an [int], as are the elements of [lens]. *)
Record PSKV : Type := mkPSKV {
  keys : list Z;
  lens : list Z;
  size : Z
}.

Definition empty_pskv : PSKV := mkPSKV [] [] 0.

(** Entries of the per-stage queues are shared pointers; the runtime state
  keeps them as addresses. *)
Abbreviation Queue := (ScheduledQueue.BytePSScheduledQueue Z).

(** ** The static members of BytePSGlobal (global.cc lines 52-73)

  Handles that no operation below inspects (communicator, transport,
  streams, threads, mutexes) are left out. *)

Record BytePSGlobal : Type := mkGlobal {
  _initialized : bool;
  _should_shutdown : bool;
  _rank : Z;
  _local_rank : Z;
  _size : Z;
  _local_size : Z;
  _partition_bound : Z;
  ps_kv_ : gmap Z PSKV;
  _queues : list (option Queue);
  _name_to_cxt : gmap string BPSContext;
  next_key_ : Z
}.

(** The values given by the definitions at lines 53-71; the queue table
  starts as [QueueNum] null pointers. *)
Definition initial_state (P : Platform) : BytePSGlobal :=
  mkGlobal false false 0 0 1 1 512000 ∅ (replicate (QueueNum P) None) ∅ 0.

Definition set_partition_bound (b : Z) (g : BytePSGlobal) : BytePSGlobal :=
  mkGlobal (_initialized g) (_should_shutdown g) (_rank g) (_local_rank g)
    (_size g) (_local_size g) b (ps_kv_ g) (_queues g) (_name_to_cxt g)
    (next_key_ g).

Definition set_name_to_cxt (m : gmap string BPSContext) (g : BytePSGlobal)
  : BytePSGlobal :=
  mkGlobal (_initialized g) (_should_shutdown g) (_rank g) (_local_rank g)
    (_size g) (_local_size g) (_partition_bound g) (ps_kv_ g) (_queues g) m
    (next_key_ g).

Definition set_next_key (k : Z) (g : BytePSGlobal) : BytePSGlobal :=
  mkGlobal (_initialized g) (_should_shutdown g) (_rank g) (_local_rank g)
    (_size g) (_local_size g) (_partition_bound g) (ps_kv_ g) (_queues g)
    (_name_to_cxt g) k.

Definition set_ps_kv (m : gmap Z PSKV) (g : BytePSGlobal) : BytePSGlobal :=
  mkGlobal (_initialized g) (_should_shutdown g) (_rank g) (_local_rank g)
    (_size g) (_local_size g) (_partition_bound g) m (_queues g)
    (_name_to_cxt g) (next_key_ g).

Definition set_queues (qs : list (option Queue)) (g : BytePSGlobal)
  : BytePSGlobal :=
  mkGlobal (_initialized g) (_should_shutdown g) (_rank g) (_local_rank g)
    (_size g) (_local_size g) (_partition_bound g) (ps_kv_ g) qs
    (_name_to_cxt g) (next_key_ g).

Definition set_initialized (b : bool) (g : BytePSGlobal) : BytePSGlobal :=
  mkGlobal b (_should_shutdown g) (_rank g) (_local_rank g)
    (_size g) (_local_size g) (_partition_bound g) (ps_kv_ g) (_queues g)
    (_name_to_cxt g) (next_key_ g).

(** What [_comm->init] writes through its four pointers. *)
Record Topology : Type := mkTopology {
  topo_rank : Z;
  topo_size : Z;
  topo_local_rank : Z;
  topo_local_size : Z
}.

Definition set_topology (t : Topology) (g : BytePSGlobal) : BytePSGlobal :=
  mkGlobal (_initialized g) (_should_shutdown g) (topo_rank t)
    (topo_local_rank t) (topo_size t) (topo_local_size t)
    (_partition_bound g) (ps_kv_ g) (_queues g) (_name_to_cxt g)
    (next_key_ g).

(** ** atoi, as the C library defines it

  Leading white space is skipped, one sign is accepted, then decimal digits
  are read up to the first other character; no digits give 0.  A value that
  does not fit an [int] has no defined result. *)

Module Libc.

Definition isspace (c : ascii) : bool :=
  let n := nat_of_ascii c in
  Nat.eqb n 32 || (Nat.leb 9 n && Nat.leb n 13).

Definition isdigit (c : ascii) : bool :=
  let n := nat_of_ascii c in
  Nat.leb 48 n && Nat.leb n 57.

Definition digit_value (c : ascii) : Z := Z.of_nat (nat_of_ascii c) - 48.

Fixpoint skip_spaces (s : string) : string :=
  match s with
  | String c r => if isspace c then skip_spaces r else s
  | EmptyString => s
  end.

Fixpoint digits_value (s : string) (acc : Z) : Z :=
  match s with
  | String c r =>
      if isdigit c then digits_value r (10 * acc + digit_value c) else acc
  | EmptyString => acc
  end.

Definition strtol10 (s : string) : Z :=
  match skip_spaces s with
  | String "-"%char r => - digits_value r 0
  | String "+"%char r => digits_value r 0
  | s' => digits_value s' 0
  end.

Definition atoi (s : string) : option Z :=
  let v := strtol10 s in
  if in_int_range v then Some v else None.

End Libc.

(** ** Lifecycle (global.cc lines 75-149) *)

Definition GetScheduledQueue (queueType : nat) (g : BytePSGlobal)
  : Outcome (option Queue) :=
  match _queues g !! queueType with
  | Some q => Ok q
  | None => Undefined
  end.

(** The body (lines 80-83) gives a null slot a fresh queue and leaves a
  slot that holds a queue alone; an index outside the table has no defined
  behaviour.  Then control reaches the closing brace of a function declared
  [void*] without a [return] statement: the call has no defined behaviour,
  on every path, unless the build is one whose [missing_return_is_benign]
  holds.  The value itself is never used: the only caller, Init, discards
  it. *)
Definition CreateScheduledQueue (P : Platform) (queueType : nat)
  (g : BytePSGlobal) : Outcome BytePSGlobal :=
  g' ← match _queues g !! queueType with
       | Some None =>
           Ok (set_queues
                 (<[queueType := Some ScheduledQueue.new_queue]> (_queues g)) g)
       | Some (Some _) => Ok g
       | None => Undefined
       end;
  if missing_return_is_benign P then Ok g' else Undefined.

(** The loop of lines 118-122 over the queue types. *)
Fixpoint create_queues (P : Platform) (types : list nat) (g : BytePSGlobal)
  : Outcome BytePSGlobal :=
  match types with
  | [] => Ok g
  | i :: rest => g' ← CreateScheduledQueue P i g; create_queues P rest g'
  end.

(** [getenv_bound] is what [getenv("BYTEPS_PARTITION_BOUND")] answers: no
  value, or the text of the variable.  The converted [int] is stored into
  the [uint32_t] bound.

  The collaborators that Init calls on lines 95-116 (the communicator, the
  parameter-server start and its barrier, the two CUDA streams) are defined
  outside global.cc and may block or fail.  The model follows the
  executions in which they come back, and takes from them only [comm], the
  topology that [_comm->init] writes; it says nothing about whether they
  do come back.  With at least one queue type, a first Init is [Undefined]
  unless [missing_return_is_benign] holds, through [CreateScheduledQueue]. *)
Definition Init (P : Platform) (getenv_bound : option string) (comm : Topology)
  (g : BytePSGlobal) : Outcome BytePSGlobal :=
  if _initialized g then Ok g
  else
    let g1 := set_topology comm g in
    g2 ← match getenv_bound with
         | Some text =>
             match Libc.atoi text with
             | Some v => Ok (set_partition_bound (wrap32 v) g1)
             | None => Undefined
             end
         | None => Ok g1
         end;
    g3 ← create_queues P (seq 0 (QueueNum P)) g2;
    Ok (set_initialized true g3).

Inductive Status : Type :=
| Status_OK
| PreconditionError.

Definition CheckInit (g : BytePSGlobal) : Status :=
  if _initialized g then Status_OK else PreconditionError.

(** ** Tensor registry (global.cc lines 170-230, 256-259) *)

(** [_name_to_cxt[name]]: the context of [name], created empty when the
  name is not in the table yet. *)
Definition context_at (name : string) (m : gmap string BPSContext) : BPSContext :=
  default empty_context (m !! name).

Definition GetContextFromName (name : string) (g : BytePSGlobal)
  : BPSContext * BytePSGlobal :=
  let ctx := context_at name (_name_to_cxt g) in
  (ctx, set_name_to_cxt (<[name := ctx]> (_name_to_cxt g)) g).

Definition GetTensorCount (g : BytePSGlobal) : Z :=
  wrap32 (Z.of_nat (stdpp.base.size (_name_to_cxt g))).

Definition byte_per_param (dtype : DataType) : Z :=
  match dtype with
  | BYTEPS_UINT8 | BYTEPS_INT8 => 1
  | BYTEPS_FLOAT16 => 2
  | BYTEPS_FLOAT32 | BYTEPS_INT32 => 4
  | BYTEPS_FLOAT64 | BYTEPS_INT64 => 8
  end.

(** [bound *= byte_per_param] on a [uint32_t]. *)
Definition ConvertBoundToBytes (dtype : DataType) (bound : Z) : Z :=
  wrap32 (bound * byte_per_param dtype).

(** [_name_to_cxt[name].key_list.push_back(k)] *)
Definition push_key (name : string) (k : Z) (m : gmap string BPSContext)
  : gmap string BPSContext :=
  let ctx := context_at name m in
  <[name := mkContext (key_list ctx ++ [k]) (cpubuff ctx) (buff_len ctx)]> m.

(** The conditional expression of line 217.  [accumulated] is an [int]
  ([auto accumulated = 0]); next to the [size_t] it is converted to 64 bits
  unsigned, and so is the 32-bit bound. *)
Definition chunk_len (size accumulated bound : Z) : Z :=
  let remaining := wrap64 (size - wrap64 accumulated) in
  if remaining >? bound then bound else remaining.

(** [accumulated += len]: the sum is formed in [size_t] and stored back
  into the [int]. *)
Definition advance (accumulated len : Z) : Z :=
  to_int (wrap64 (wrap64 accumulated + len)).

(** The loop of lines 215-218.  [trace] is ghost: it records, per
  iteration, the key pushed and the number of bytes the iteration
  consumed.  [None] when [fuel] iterations were not enough. *)
Fixpoint partition_loop (fuel : nat) (name : string) (size accumulated : Z)
  (g : BytePSGlobal) (trace : list (Z * Z))
  : option (Z * BytePSGlobal * list (Z * Z)) :=
  if wrap64 accumulated <? size then
    match fuel with
    | O => None
    | S fuel' =>
        let key := next_key_ g in
        let g1 := set_next_key (wrap32 (key + 1))
                    (set_name_to_cxt (push_key name key (_name_to_cxt g)) g) in
        let len := chunk_len size accumulated (_partition_bound g) in
        partition_loop fuel' name size (advance accumulated len) g1
          (trace ++ [(key, len)])
    end
  else Some (accumulated, g, trace).

(** Lines 209-213: the pinned staging buffer of a tensor on a GPU. *)
Definition alloc_staging (P : Platform) (name : string) (size device : Z)
  (g : BytePSGlobal) : Outcome BytePSGlobal :=
  if device =? CPU_DEVICE_ID P then Ok g
  else
    match cudaHostAlloc P size with
    | Some p =>
        let ctx := context_at name (_name_to_cxt g) in
        Ok (set_name_to_cxt
              (<[name := mkContext (key_list ctx) (Some p) size]> (_name_to_cxt g)) g)
    | None => Fatal CudaError
    end.

(** [IsTensorInitialized], returning next to its result the ghost trace of
  the partitioning loop (empty when the loop did not run). *)
Definition IsTensorInitialized_traced (P : Platform) (fuel : nat)
  (name : string) (size device : Z) (dtype : DataType) (g : BytePSGlobal)
  : Outcome (bool * BytePSGlobal * list (Z * Z)) :=
  if 0 <? size then
    match _name_to_cxt g !! name with
    | None =>
        let g1 := if next_key_ g =? 0
                  then set_partition_bound
                         (ConvertBoundToBytes dtype (_partition_bound g)) g
                  else g in
        g2 ← alloc_staging P name size device g1;
        match partition_loop fuel name size 0 g2 [] with
        | Some (_, g3, trace) => Ok (false, g3, trace)
        | None => OutOfFuel
        end
    | Some _ => Ok (true, g, [])
    end
  else Fatal InvariantViolation.

Definition IsTensorInitialized (P : Platform) (fuel : nat)
  (name : string) (size device : Z) (dtype : DataType) (g : BytePSGlobal)
  : Outcome (bool * BytePSGlobal) :=
  '(b, g', _) ← IsTensorInitialized_traced P fuel name size device dtype g;
  Ok (b, g').

(** A sequence of registrations, and the keys it issued in the order in
  which the counter handed them out. *)
Record Registration : Type := mkRegistration {
  reg_name : string;
  reg_size : Z;
  reg_device : Z;
  reg_dtype : DataType
}.

Fixpoint register_all (P : Platform) (fuel : nat) (reqs : list Registration)
  (g : BytePSGlobal) : Outcome (BytePSGlobal * list Z) :=
  match reqs with
  | [] => Ok (g, [])
  | r :: rest =>
      '(_, g1, trace) ← IsTensorInitialized_traced P fuel (reg_name r)
                          (reg_size r) (reg_device r) (reg_dtype r) g;
      '(g2, issued) ← register_all P fuel rest g1;
      Ok (g2, trace.*1 ++ issued)
  end.

(** ** Key-to-server encoding (global.cc lines 232-254)

  [krs] is the answer of [GetServerKeyRanges]: one [(begin, end)] pair of
  64-bit keys per server. *)

Definition server_of (key num_servers : Z) : Z := Z.rem (key * 9973) num_servers.

Definition EncodeDefaultKey (krs : list (Z * Z)) (key len : Z) (g : BytePSGlobal)
  : Outcome (PSKV * BytePSGlobal) :=
  let pskv := default empty_pskv (ps_kv_ g !! key) in
  let g1 := set_ps_kv (<[key := pskv]> (ps_kv_ g)) g in
  match keys pskv with
  | _ :: _ =>
      if wrap64 (size pskv) =? len then Ok (pskv, g1)
      else Fatal InvariantViolation
  | [] =>
      let num_servers := to_int (Z.of_nat (length krs)) in
      if 0 <? num_servers then
        if in_int_range (key * 9973) then
          let server := server_of key num_servers in
          match (if 0 <=? server then krs !! Z.to_nat server else None) with
          | Some (range_begin, range_end) =>
              let ps_key := wrap64 (range_begin + wrap64 key) in
              if ps_key <? range_end then
                let pskv' := mkPSKV (keys pskv ++ [ps_key])
                               (lens pskv ++ [to_int len]) (to_int len) in
                Ok (pskv', set_ps_kv (<[key := pskv']> (ps_kv_ g)) g)
              else Fatal InvariantViolation
          | None => Undefined
          end
        else Undefined
      else Fatal InvariantViolation
  end.

(** ** Vocabulary for the statements

  The keys [k], [k+1], ... in the order in which the [unsigned int] counter
  hands them out; several [push_back]s in a row; the sum of a list of chunk
  lengths; the number of chunks of at most [b] bytes that cover [a] bytes. *)

Definition iota_keys (k : Z) (n : nat) : list Z :=
  map (fun i => wrap32 (k + Z.of_nat i)) (seq 0 n).

Definition push_keys (name : string) (ks : list Z) (m : gmap string BPSContext)
  : gmap string BPSContext :=
  fold_left (fun m' k => push_key name k m') ks m.

Definition total (l : list Z) : Z := fold_right Z.add 0 l.

Definition ceil_div (a b : Z) : Z := (a + b - 1) / b.

(** Every key stored in the registry has been handed out by the counter
  and lies below its present value. *)
Definition keys_below (g : BytePSGlobal) : Prop :=
  forall name ctx k,
    _name_to_cxt g !! name = Some ctx -> k ∈ key_list ctx ->
    0 <= k < next_key_ g.

(** The part of the runtime state that no registration writes: the
  lifecycle flags, the topology, the queues and the encoding table. *)
Definition same_outside_registry (g g' : BytePSGlobal) : Prop :=
  _initialized g' = _initialized g /\
  _should_shutdown g' = _should_shutdown g /\
  _rank g' = _rank g /\ _local_rank g' = _local_rank g /\
  _size g' = _size g /\ _local_size g' = _local_size g /\
  ps_kv_ g' = ps_kv_ g /\ _queues g' = _queues g.

(** The byte bound the partitioning loop of a first registration works
  with: converted from elements when the key counter is 0, as it stands
  otherwise. *)
Definition bound_in_effect (dtype : DataType) (g : BytePSGlobal) : Z :=
  if next_key_ g =? 0
  then ConvertBoundToBytes dtype (_partition_bound g)
  else _partition_bound g.

(** The staging buffer and its length that a first registration records:
  none on the CPU, the allocated one with the tensor's size otherwise. *)
Definition staging_of (P : Platform) (size device : Z) : option Z * Z :=
  if device =? CPU_DEVICE_ID P then (None, 0) else (cudaHostAlloc P size, size).

(** ** Concrete instances for the worked examples

  A host whose CPU device id is -1, with four pipeline stages, on which
  pinned allocations succeed, and whose build comes back from the call of
  [CreateScheduledQueue] although the function has no [return] statement (a
  first Init has no defined outcome on any other build); a single-process
  topology; and the decimal text of a positive number, as it would be
  written into the environment. *)

Definition example_platform : Platform :=
  mkPlatform (-1) 4 (fun _ => Some 4096) true.

Definition example_topology : Topology := mkTopology 0 1 0 1.

Definition decimal (p : positive) : string :=
  NilEmpty.string_of_uint (Pos.to_uint p).

(** A table holding 2^32 - 1 contexts, under the names "0", "1", ...,
  "4294967294". *)
Definition crowded_registry : gmap string BPSContext :=
  list_to_map ((fun i : nat => (pretty (N.of_nat i), empty_context))
                 <$> seq 0 (Z.to_nat 4294967295)).

(** The key ranges of three servers, the 64-bit key space cut into
  thirds. *)
Definition three_servers : list (Z * Z) :=
  [(0, 6148914691236517205);
   (6148914691236517205, 12297829382473034410);
   (12297829382473034410, 18446744073709551615)].

(** * Properties *)

(** ** Facts about the machine integers *)

Lemma wrap32_small z : 0 <= z < 2 ^ 32 -> wrap32 z = z.
Proof. intros H. unfold wrap32. apply Z.mod_small. exact H. Qed.

Lemma wrap64_small z : 0 <= z < 2 ^ 64 -> wrap64 z = z.
Proof. intros H. unfold wrap64. apply Z.mod_small. exact H. Qed.

Lemma wrap32_range z : 0 <= wrap32 z < 2 ^ 32.
Proof. unfold wrap32. apply Z.mod_pos_bound. lia. Qed.

Lemma wrap64_range z : 0 <= wrap64 z < 2 ^ 64.
Proof. unfold wrap64. apply Z.mod_pos_bound. lia. Qed.

Lemma to_int_small z : 0 <= z <= INT_MAX -> to_int z = z.
Proof.
  unfold INT_MAX, to_int. intros H.
  rewrite Z.mod_small by lia.
  destruct (Z.ltb_spec z (2 ^ 31)); lia.
Qed.

Lemma to_int_range z : INT_MIN <= to_int z <= INT_MAX.
Proof.
  unfold to_int, INT_MIN, INT_MAX.
  pose proof (Z.mod_pos_bound z (2 ^ 32) ltac:(lia)).
  destruct (Z.ltb_spec (z mod 2 ^ 32) (2 ^ 31)); lia.
Qed.

(** Unfold the monadic plumbing of [Outcome]. *)
Ltac outcome_simpl :=
  repeat (unfold mbind, mret, Outcome_bind, Outcome_ret in *; simpl in *).

(** ** The scheduled queue *)

Section QueueFacts.
Import ScheduledQueue.
Context {A : Type}.
Implicit Types (q : BytePSScheduledQueue A) (es : list A).

Lemma addTasks_sq es q :
  addTasks es q = mkQueue (_sq q ++ es) (_finished q).
Proof.
  revert q. induction es as [|e es IH]; intros q.
  - destruct q as [l fin]. simpl. by rewrite app_nil_r.
  - simpl. rewrite IH. simpl. by rewrite <- app_assoc.
Qed.

Lemma getTasks_take (J : nat) (l : list A) (fin : Z) :
  (J <= length l)%nat ->
  getTasks J (mkQueue l fin) = Ok (take J l, mkQueue (drop J l) fin).
Proof.
  revert l. induction J as [|J IH]; intros l HJ.
  - reflexivity.
  - destruct l as [|e l]; simpl in HJ; [lia|].
    cbn [getTasks]. unfold getTask at 1. cbn [_sq _finished].
    outcome_simpl. rewrite IH by lia. reflexivity.
Qed.

Lemma getTasks_too_many (J : nat) (l : list A) (fin : Z) :
  (length l < J)%nat -> getTasks J (mkQueue l fin) = Undefined.
Proof.
  revert l. induction J as [|J IH]; intros l HJ; [lia|].
  destruct l as [|e l]; [reflexivity|].
  simpl in HJ. cbn [getTasks]. unfold getTask at 1. cbn [_sq _finished].
  outcome_simpl. rewrite IH by lia. reflexivity.
Qed.

(** C7, as amended: on a non-empty queue [getTask] removes and returns the
  head and [peekTask] returns the head and leaves the queue as it is; on an
  empty queue the source checks nothing and calls [front()] on the empty
  container, so neither call has a defined result and no error is raised. *)
Theorem C7_head_or_undefined (front : A) (rest : list A) (fin : Z) :
  getTask (mkQueue (front :: rest) fin) = Ok (front, mkQueue rest fin) /\
  peekTask (mkQueue (front :: rest) fin) = Ok front /\
  getTask (mkQueue (@nil A) fin) = Undefined /\
  peekTask (mkQueue (@nil A) fin) = Undefined.
Proof. repeat split. Qed.

(** C8, as amended: on a fresh queue, [K] [addTask] calls followed by
  [J <= K] [getTask] calls return the first [J] entries in the order in
  which they were added, every call succeeding; [K - J] entries stay
  queued, in order; [pendingSize] returns that number reduced to the
  [uint32_t] of its return type, which is [K - J] itself whenever
  [K - J < 2^32]. *)
Theorem C8_fifo (es : list A) (J : nat) (fin : Z) :
  (J <= length es)%nat ->
  let K := length es in
  let q' := mkQueue (drop J es) fin in
  getTasks J (addTasks es (mkQueue [] fin)) = Ok (take J es, q') /\
  length (_sq q') = (K - J)%nat /\
  pendingSize q' = wrap32 (Z.of_nat K - Z.of_nat J) /\
  (Z.of_nat K - Z.of_nat J < 2 ^ 32 ->
   pendingSize q' = Z.of_nat K - Z.of_nat J).
Proof.
  intros HJ K q'. subst K q'.
  rewrite addTasks_sq. cbn [_sq _finished app].
  split; [by apply getTasks_take|].
  assert (Hlen : length (drop J es) = (length es - J)%nat)
    by apply length_drop.
  split; [exact Hlen|].
  unfold pendingSize. cbn [_sq]. rewrite Hlen.
  replace (Z.of_nat (length es - J)) with (Z.of_nat (length es) - Z.of_nat J)
    by lia.
  split; [reflexivity|].
  intros Hsmall. apply wrap32_small. lia.
Qed.

End QueueFacts.

(** The claim of C7 fails on the empty queue: neither call ends in
  [EmptyQueueError], nor in any other defined way. *)
Lemma C7_empty_queue_no_error :
  ScheduledQueue.getTask (@ScheduledQueue.new_queue Z)
    <> Fatal EmptyQueueError /\
  ScheduledQueue.peekTask (@ScheduledQueue.new_queue Z)
    <> Fatal EmptyQueueError /\
  ScheduledQueue.getTask (@ScheduledQueue.new_queue Z) = Undefined /\
  ScheduledQueue.peekTask (@ScheduledQueue.new_queue Z) = Undefined.
Proof. repeat split; discriminate. Qed.

(** The claim of C8 fails on the reported size once 2^32 entries are
  queued: after [K = 2^32] [addTask] calls and [J = 0] [getTask] calls
  [pendingSize] answers 0. *)
Lemma C8_pendingSize_wraps_at_2_32 :
  let es := replicate (Z.to_nat 4294967296) 7 in
  let q := ScheduledQueue.addTasks es ScheduledQueue.new_queue in
  Z.of_nat (length es) - 0 = 4294967296 /\
  ScheduledQueue.getTasks 0 q = Ok ([], q) /\
  ScheduledQueue.pendingSize q = 0.
Proof.
  intros es q.
  assert (Hlen : Z.of_nat (length es) = 4294967296)
    by (subst es; rewrite length_replicate; by apply Z2Nat.id).
  split; [lia|]. split; [reflexivity|].
  subst q. rewrite addTasks_sq. unfold ScheduledQueue.pendingSize.
  cbn [ScheduledQueue._sq ScheduledQueue.new_queue app].
  rewrite Hlen. reflexivity.
Qed.

Lemma C8_fifo_witness :
  (2 <= length [10; 20; 30])%nat /\
  ScheduledQueue.getTasks 2
    (ScheduledQueue.addTasks [10; 20; 30] (ScheduledQueue.mkQueue [] 0))
  = Ok ([10; 20], ScheduledQueue.mkQueue [30] 0) /\
  ScheduledQueue.pendingSize (ScheduledQueue.mkQueue [30] 0) = 1.
Proof.
  split; [simpl; lia|].
  pose proof (C8_fifo [10; 20; 30] 2%nat 0 ltac:(simpl; lia)) as H.
  simpl in H. destruct H as (H1 & _ & _ & H4).
  split; [exact H1|]. apply H4. lia.
Defined.

(** ** atoi on decimal text *)

Section AtoiFacts.
Import Libc.

(** Evaluate the character tests on a literal character. *)
Ltac eval_char_tests :=
  repeat match goal with
  | |- context [isdigit ?c] =>
      let b := eval vm_compute in (isdigit c) in change (isdigit c) with b
  | |- context [digit_value ?c] =>
      let v := eval vm_compute in (digit_value c) in
      change (digit_value c) with v
  end.

Lemma digits_value_acc (d : Decimal.uint) (acc : positive) :
  digits_value (NilEmpty.string_of_uint d) (Z.pos acc)
  = Z.pos (Pos.of_uint_acc d acc).
Proof.
  revert acc. induction d; intros acc; cbn [NilEmpty.string_of_uint];
    [reflexivity | ..];
    cbn [digits_value]; eval_char_tests; cbv iota;
    cbn [Pos.of_uint_acc]; rewrite <- IHd; f_equal; lia.
Qed.

Lemma digits_value_of_uint (d : Decimal.uint) :
  digits_value (NilEmpty.string_of_uint d) 0 = Z.of_N (Pos.of_uint d).
Proof.
  induction d; cbn [NilEmpty.string_of_uint];
    [reflexivity | ..];
    cbn [digits_value]; eval_char_tests; cbv iota;
    cbn [Pos.of_uint]; try exact IHd;
    cbn [Z.of_N]; rewrite <- digits_value_acc; f_equal.
Qed.

Lemma strtol10_digits (d : Decimal.uint) :
  strtol10 (NilEmpty.string_of_uint d)
  = digits_value (NilEmpty.string_of_uint d) 0.
Proof. destruct d; reflexivity. Qed.

Lemma atoi_decimal (p : positive) :
  Z.pos p <= INT_MAX -> atoi (decimal p) = Some (Z.pos p).
Proof.
  intros Hp. unfold atoi, decimal.
  rewrite strtol10_digits, digits_value_of_uint, Unsigned.of_to.
  cbn [Z.of_N]. unfold in_int_range, INT_MIN, INT_MAX in *.
  destruct (Z.leb_spec (-2147483648) (Z.pos p)); [|lia].
  destruct (Z.leb_spec (Z.pos p) 2147483647); [reflexivity|lia].
Qed.

Lemma atoi_empty : atoi EmptyString = Some 0.
Proof. reflexivity. Qed.

(** A text whose first character is neither white space, nor a sign, nor a
  digit holds no number. *)
Lemma atoi_no_number (c : ascii) (rest : string) :
  isspace c = false -> isdigit c = false ->
  c <> "+"%char -> c <> "-"%char ->
  atoi (String c rest) = Some 0.
Proof.
  intros Hs Hd Hplus Hminus. unfold atoi, strtol10.
  cbn [skip_spaces]. rewrite Hs.
  assert (Hval : digits_value (String c rest) 0 = 0)
    by (cbn [digits_value]; by rewrite Hd).
  destruct c as [b0 b1 b2 b3 b4 b5 b6 b7].
  destruct b0, b1, b2, b3, b4, b5, b6, b7;
    try congruence; try (rewrite Hval; reflexivity).
Qed.

End AtoiFacts.

(** ** Init and the partition bound *)

Section InitFacts.
Variable P : Platform.

(** What a returning run of the queue loop may have changed: the queue
  table, nothing else. *)
Lemma create_queues_frame (types : list nat) :
  forall g g', create_queues P types g = Ok g' ->
  exists qs, g' = set_queues qs g.
Proof.
  induction types as [|i types IH]; intros g g' H.
  - injection H as <-. exists (_queues g). by destruct g.
  - cbn [create_queues] in H. unfold CreateScheduledQueue in H.
    destruct (missing_return_is_benign P);
      destruct (_queues g !! i) as [[q|]|]; outcome_simpl; try discriminate.
    + by apply IH.
    + apply IH in H as [qs ->]. exists qs. by destruct g.
Qed.

(** The bound that a first Init leaves, whenever it returns: line 102. *)
Lemma Init_first_bound (getenv_bound : option string) (comm : Topology)
  (g g' : BytePSGlobal) :
  _initialized g = false ->
  Init P getenv_bound comm g = Ok g' ->
  match getenv_bound with
  | Some text =>
      exists v, Libc.atoi text = Some v /\ _partition_bound g' = wrap32 v
  | None => _partition_bound g' = _partition_bound g
  end.
Proof.
  intros Hinit. unfold Init. rewrite Hinit.
  destruct getenv_bound as [text|];
    [destruct (Libc.atoi text) as [v|] eqn:Hv|];
    outcome_simpl; try discriminate;
    (destruct (create_queues _ _ _) as [g3| | |] eqn:Hq;
     outcome_simpl; try discriminate;
     intros [= <-]; apply create_queues_frame in Hq as [qs ->]).
  - exists v. by split.
  - reflexivity.
Qed.

Lemma Init_again (getenv_bound : option string) (comm : Topology)
  (g : BytePSGlobal) :
  _initialized g = true -> Init P getenv_bound comm g = Ok g.
Proof. intros H. unfold Init. by rewrite H. Qed.

(** C6, as amended: whenever the first Init of a process returns, the
  element bound it leaves is the default 512000 when the override is absent;
  when the override is set, the bound is whatever [atoi] makes of its text:
  a decimal positive integer up to [INT_MAX] gives that integer, and a text
  without a number (empty, or starting with a character that is no white
  space, sign or digit) gives 0 and not the default.  Nothing is said here
  on whether Init returns: that rests on the collaborators it calls and on
  the build. *)
Theorem C6_bound_after_Init (comm : Topology) (g' : BytePSGlobal) :
  (Init P None comm (initial_state P) = Ok g' ->
   _partition_bound g' = 512000) /\
  (forall p : positive, Z.pos p <= INT_MAX ->
     Init P (Some (decimal p)) comm (initial_state P) = Ok g' ->
     _partition_bound g' = Z.pos p) /\
  (Init P (Some EmptyString) comm (initial_state P) = Ok g' ->
   _partition_bound g' = 0) /\
  (forall (c : ascii) (rest : string),
     Libc.isspace c = false -> Libc.isdigit c = false ->
     c <> "+"%char -> c <> "-"%char ->
     Init P (Some (String c rest)) comm (initial_state P) = Ok g' ->
     _partition_bound g' = 0).
Proof.
  repeat split.
  - intros H. by apply Init_first_bound in H.
  - intros p Hp H. apply Init_first_bound in H as (v & Hv & ->); [|reflexivity].
    rewrite (atoi_decimal p Hp) in Hv. injection Hv as <-.
    apply wrap32_small. unfold INT_MAX in Hp. lia.
  - intros H. apply Init_first_bound in H as (v & Hv & ->); [|reflexivity].
    rewrite atoi_empty in Hv. by injection Hv as <-.
  - intros c rest Hs Hd Hplus Hminus H.
    apply Init_first_bound in H as (v & Hv & ->); [|reflexivity].
    rewrite (atoi_no_number c rest Hs Hd Hplus Hminus) in Hv.
    by injection Hv as <-.
Qed.

End InitFacts.

(** The claim of C6 fails for an invalid override: with
  BYTEPS_PARTITION_BOUND=abc the bound that a returning Init leaves is 0
  and not 512000, on every platform; the example platform is one on which
  this Init does return.  It also fails for a positive integer that no
  [int] holds: for 4294967296 [atoi] has no defined result, and neither has
  Init. *)
Lemma C6_invalid_override_changes_bound :
  (forall P comm g',
     Init P (Some "abc"%string) comm (initial_state P) = Ok g' ->
     _partition_bound g' = 0 /\ _partition_bound g' <> 512000) /\
  (exists g', Init example_platform (Some "abc"%string) example_topology
                (initial_state example_platform) = Ok g' /\
              _partition_bound g' = 0 /\
              _partition_bound g' <> 512000) /\
  Init example_platform (Some "4294967296"%string) example_topology
    (initial_state example_platform) = Undefined.
Proof.
  split; [|split; [|reflexivity]].
  - intros P comm g' H.
    apply Init_first_bound in H as (v & Hv & ->); [|reflexivity].
    injection Hv as <-. split; [reflexivity|discriminate].
  - eexists. split; [reflexivity|]. split; [reflexivity|discriminate].
Qed.

Lemma C6_bound_after_Init_witness :
  exists g1 g2,
    Z.pos 4096 <= INT_MAX /\
    Init example_platform (Some "4096"%string) example_topology
      (initial_state example_platform) = Ok g1 /\
    _partition_bound g1 = 4096 /\
    Libc.isspace "a" = false /\ Libc.isdigit "a" = false /\
    "a"%char <> "+"%char /\ "a"%char <> "-"%char /\
    Init example_platform (Some "abc"%string) example_topology
      (initial_state example_platform) = Ok g2 /\
    _partition_bound g2 = 0.
Proof.
  eexists. eexists.
  split; [unfold INT_MAX; lia|].
  split; [vm_compute; reflexivity|].
  split.
  { match goal with
    | |- _partition_bound ?g = _ =>
        apply (proj1 (proj2 (C6_bound_after_Init example_platform
                               example_topology g)) 4096%positive)
    end; [unfold INT_MAX; lia|vm_compute; reflexivity]. }
  split; [reflexivity|]. split; [reflexivity|].
  split; [discriminate|]. split; [discriminate|].
  split; [vm_compute; reflexivity|].
  match goal with
  | |- _partition_bound ?g = _ =>
      apply (proj2 (proj2 (proj2 (C6_bound_after_Init example_platform
                                    example_topology g)))
               "a"%char "bc"%string)
  end; [reflexivity|reflexivity|discriminate|discriminate
       |vm_compute; reflexivity].
Defined.

(** ** The key counter and the registry *)

Lemma wrap32_add_l a b : wrap32 (wrap32 a + b) = wrap32 (a + b).
Proof. unfold wrap32. apply Zplus_mod_idemp_l. Qed.

Lemma iota_keys_length k n : length (iota_keys k n) = n.
Proof. unfold iota_keys. by rewrite length_map, length_seq. Qed.

Lemma iota_keys_S k n :
  iota_keys k (S n) = wrap32 k :: iota_keys (wrap32 (k + 1)) n.
Proof.
  unfold iota_keys. cbn [seq map]. f_equal.
  - f_equal. lia.
  - rewrite <- seq_shift, map_map. apply map_ext. intros i.
    rewrite wrap32_add_l. f_equal. lia.
Qed.

Lemma iota_keys_app k n1 n2 :
  iota_keys k (n1 + n2)
  = iota_keys k n1 ++ iota_keys (wrap32 (k + Z.of_nat n1)) n2.
Proof.
  revert k. induction n1 as [|n1 IH]; intros k.
  - cbn [Nat.add iota_keys seq map app]. unfold iota_keys.
    apply map_ext. intros i. rewrite wrap32_add_l. f_equal. lia.
  - cbn [Nat.add]. rewrite !iota_keys_S, IH. cbn [app]. do 3 f_equal.
    rewrite wrap32_add_l. f_equal. lia.
Qed.

Lemma iota_keys_lookup k n (i : nat) :
  (i < n)%nat -> iota_keys k n !! i = Some (wrap32 (k + Z.of_nat i)).
Proof.
  intros Hi. unfold iota_keys. rewrite list_lookup_fmap.
  rewrite lookup_seq_lt by exact Hi. reflexivity.
Qed.

Lemma push_keys_snoc name ks k m :
  push_keys name (ks ++ [k]) m = push_key name k (push_keys name ks m).
Proof. unfold push_keys. by rewrite fold_left_app. Qed.

Lemma push_key_lookup_ne name other k m :
  name <> other -> push_key name k m !! other = m !! other.
Proof. intros H. unfold push_key. by rewrite lookup_insert_ne. Qed.

Lemma push_keys_lookup_ne name other ks m :
  name <> other -> push_keys name ks m !! other = m !! other.
Proof.
  intros H. revert m. induction ks as [|k ks IH]; intros m; [done|].
  unfold push_keys in *. cbn [fold_left]. rewrite IH.
  by apply push_key_lookup_ne.
Qed.

Lemma push_keys_lookup name k ks m :
  push_keys name (k :: ks) m !! name
  = Some (mkContext (key_list (context_at name m) ++ k :: ks)
            (cpubuff (context_at name m)) (buff_len (context_at name m))).
Proof.
  revert k m. induction ks as [|k' ks IH]; intros k m.
  - unfold push_keys, push_key. cbn [fold_left]. by rewrite lookup_insert_eq.
  - change (push_keys name (k :: k' :: ks) m)
      with (push_keys name (k' :: ks) (push_key name k m)).
    rewrite IH. unfold context_at at 1 2 3, push_key.
    rewrite lookup_insert_eq. cbn [default from_option id key_list cpubuff buff_len].
    by rewrite <- app_assoc.
Qed.

Lemma partition_loop_eq fuel name size accumulated g trace :
  partition_loop fuel name size accumulated g trace =
  if wrap64 accumulated <? size then
    match fuel with
    | O => None
    | S fuel' =>
        partition_loop fuel' name size
          (advance accumulated (chunk_len size accumulated (_partition_bound g)))
          (set_next_key (wrap32 (next_key_ g + 1))
             (set_name_to_cxt (push_key name (next_key_ g) (_name_to_cxt g)) g))
          (trace ++ [(next_key_ g,
                      chunk_len size accumulated (_partition_bound g))])
    end
  else Some (accumulated, g, trace).
Proof. destruct fuel; reflexivity. Qed.

Lemma loop_state_nil name g :
  0 <= next_key_ g < 2 ^ 32 ->
  set_next_key (wrap32 (next_key_ g + Z.of_nat (length (@nil (Z * Z)))))
    (set_name_to_cxt (push_keys name [] (_name_to_cxt g)) g) = g.
Proof.
  intros Hk. destruct g as [i s r lr sz ls b kv qs m k].
  unfold set_next_key, set_name_to_cxt, push_keys.
  cbn [fold_left length Z.of_nat _initialized _should_shutdown _rank
       _local_rank _size _local_size _partition_bound ps_kv_ _queues
       _name_to_cxt next_key_] in *.
  f_equal. rewrite Z.add_0_r. by apply wrap32_small.
Qed.

Lemma loop_state_cons name g (c : Z) (new : list (Z * Z)) :
  let g1 := set_next_key (wrap32 (next_key_ g + 1))
              (set_name_to_cxt (push_key name (next_key_ g) (_name_to_cxt g)) g) in
  set_next_key (wrap32 (next_key_ g1 + Z.of_nat (length new)))
    (set_name_to_cxt (push_keys name new.*1 (_name_to_cxt g1)) g1)
  = set_next_key
      (wrap32 (next_key_ g + Z.of_nat (length ((next_key_ g, c) :: new))))
      (set_name_to_cxt
         (push_keys name ((next_key_ g, c) :: new).*1 (_name_to_cxt g)) g).
Proof.
  destruct g as [i s r lr sz ls b kv qs m k].
  unfold set_next_key, set_name_to_cxt.
  cbn [_initialized _should_shutdown _rank
       _local_rank _size _local_size _partition_bound ps_kv_ _queues
       _name_to_cxt next_key_ length fmap list_fmap fst].
  f_equal. rewrite wrap32_add_l. f_equal. lia.
Qed.

(** What any terminating run of the loop leaves behind: the keys pushed are
  consecutive counter values, all on the context of [name]; nothing else
  moves. *)
Lemma partition_loop_state fuel name size :
  forall accumulated g trace acc' g' trace',
  0 <= next_key_ g < 2 ^ 32 ->
  partition_loop fuel name size accumulated g trace = Some (acc', g', trace') ->
  exists new,
    trace' = trace ++ new /\
    new.*1 = iota_keys (next_key_ g) (length new) /\
    g' = set_next_key (wrap32 (next_key_ g + Z.of_nat (length new)))
           (set_name_to_cxt (push_keys name new.*1 (_name_to_cxt g)) g) /\
    ((wrap64 accumulated <? size) = true -> new <> []) /\
    (wrap64 acc' <? size) = false.
Proof.
  induction fuel as [|fuel IH]; intros acc g tr acc' g' tr' Hk Hrun;
    rewrite partition_loop_eq in Hrun;
    destruct (wrap64 acc <? size) eqn:Hcond; try discriminate.
  - injection Hrun as <- <- <-. exists []. rewrite app_nil_r.
    repeat split; try done.
    symmetry. by apply loop_state_nil.
  - apply IH in Hrun as (new & -> & Hkeys & -> & _ & Hexit);
      [|cbn; apply wrap32_range].
    cbn [set_next_key set_name_to_cxt next_key_ _name_to_cxt] in *.
    exists ((next_key_ g, chunk_len size acc (_partition_bound g)) :: new).
    split; [by rewrite <- app_assoc|].
    split; [cbn [fmap list_fmap length fst]; rewrite iota_keys_S;
            rewrite (wrap32_small (next_key_ g)) by done;
            f_equal; exact Hkeys|].
    split; [|split; [done|exact Hexit]].
    apply loop_state_cons.
  - injection Hrun as <- <- <-. exists []. rewrite app_nil_r.
    repeat split; try done.
    symmetry. by apply loop_state_nil.
Qed.

(** ** The partitioning loop *)

Lemma total_app l1 l2 : total (l1 ++ l2) = total l1 + total l2.
Proof. unfold total. induction l1 as [|x l1 IH]; simpl; lia. Qed.

(** While no sum leaves the range of [int], the loop covers the tensor:
  with a positive bound [B] and [size <= INT_MAX] it stops after exactly
  the [n] iterations for which [(n-1)*B < size - accumulated <= n*B], with
  [accumulated = size], every chunk positive and at most [B]. *)
Lemma partition_loop_small name size B :
  0 < B -> size <= INT_MAX ->
  forall (n fuel : nat) accumulated g trace,
  _partition_bound g = B ->
  0 <= accumulated <= size ->
  (Z.of_nat n - 1) * B < size - accumulated <= Z.of_nat n * B ->
  (n <= fuel)%nat ->
  exists g' new,
    partition_loop fuel name size accumulated g trace
      = Some (size, g', trace ++ new) /\
    length new = n /\
    total new.*2 = size - accumulated /\
    Forall (fun c => 0 < c <= B) new.*2.
Proof.
  intros HB Hmax. unfold INT_MAX in Hmax.
  induction n as [|n IH]; intros fuel acc g tr Hbound Hacc Hn Hfuel;
    rewrite partition_loop_eq.
  - assert (acc = size) as -> by lia.
    rewrite wrap64_small by lia. rewrite Z.ltb_irrefl.
    exists g, []. rewrite app_nil_r.
    split; [reflexivity|]. split; [reflexivity|].
    split; [change (total [].*2) with 0; lia|constructor].
  - assert (Hlt : acc < size) by nia.
    rewrite (wrap64_small acc) by lia.
    destruct (Z.ltb_spec acc size) as [_|]; [|lia].
    destruct fuel as [|fuel]; [lia|].
    rewrite Hbound.
    set (len := chunk_len size acc B).
    assert (Hlen : len = Z.min B (size - acc)).
    { subst len. unfold chunk_len. rewrite (wrap64_small acc) by lia.
      rewrite wrap64_small by lia.
      destruct (Z.gtb_spec (size - acc) B); lia. }
    assert (Hadv : advance acc len = acc + len).
    { unfold advance. rewrite (wrap64_small acc) by lia.
      rewrite wrap64_small by lia. apply to_int_small.
      unfold INT_MAX. lia. }
    rewrite Hadv.
    set (g1 := set_next_key _ _). set (tr1 := tr ++ _).
    destruct (IH fuel (acc + len) g1 tr1) as (g' & new & Hrun & Hcount & Hsum & Hall).
    { subst g1. cbn [set_next_key set_name_to_cxt _partition_bound]. exact Hbound. }
    { lia. }
    { rewrite Hlen. destruct (Z.min_spec B (size - acc)) as [[? ->]|[? ->]]; nia. }
    { lia. }
    rewrite Hrun. subst tr1.
    exists g', ((next_key_ g, len) :: new).
    rewrite <- app_assoc. cbn [app].
    split; [reflexivity|]. split; [cbn [length]; lia|].
    split; [change (total ((next_key_ g, len) :: new).*2)
              with (len + total new.*2); lia|].
    change (((next_key_ g, len) :: new).*2) with (len :: new.*2).
    constructor; [lia | exact Hall].
Qed.

(** With a zero bound the loop makes no progress: no budget is enough. *)
Lemma partition_loop_zero_bound name size :
  0 < size < 2 ^ 64 ->
  forall fuel g trace,
  _partition_bound g = 0 ->
  partition_loop fuel name size 0 g trace = None.
Proof.
  intros Hsize. induction fuel as [|fuel IH]; intros g tr Hb;
    rewrite partition_loop_eq;
    change (wrap64 0) with 0;
    destruct (Z.ltb_spec 0 size) as [_|]; try lia; [reflexivity|].
  rewrite Hb.
  assert (Hlen : chunk_len size 0 0 = 0).
  { unfold chunk_len. change (wrap64 0) with 0. rewrite Z.sub_0_r.
    rewrite wrap64_small by lia. destruct (Z.gtb_spec size 0); lia. }
  rewrite Hlen. change (advance 0 0) with 0. apply IH. exact Hb.
Qed.

(** A run that returns has put [name] into the table as soon as it made one
  iteration. *)
Lemma partition_loop_registers fuel name size :
  forall accumulated g trace acc' g' trace',
  partition_loop fuel name size accumulated g trace = Some (acc', g', trace') ->
  (wrap64 accumulated <? size) = true \/ is_Some (_name_to_cxt g !! name) ->
  is_Some (_name_to_cxt g' !! name).
Proof.
  induction fuel as [|fuel IH]; intros acc g tr acc' g' tr' Hrun Hpre;
    rewrite partition_loop_eq in Hrun;
    destruct (wrap64 acc <? size) eqn:Hcond; try discriminate.
  - injection Hrun as <- <- <-. by destruct Hpre.
  - eapply IH; [exact Hrun|]. right.
    cbn [set_next_key set_name_to_cxt _name_to_cxt]. unfold push_key.
    rewrite lookup_insert_eq. eauto.
  - injection Hrun as <- <- <-. by destruct Hpre.
Qed.

(** ** Registration *)

Section RegistrationFacts.
Variable P : Platform.

Lemma registered_returns_true fuel name size device dtype g :
  is_Some (_name_to_cxt g !! name) -> 0 < size ->
  IsTensorInitialized_traced P fuel name size device dtype g = Ok (true, g, []).
Proof.
  intros [ctx Hctx] Hsize. unfold IsTensorInitialized_traced.
  destruct (Z.ltb_spec 0 size); [|lia]. by rewrite Hctx.
Qed.

Lemma zero_size_is_fatal fuel name device dtype g :
  IsTensorInitialized P fuel name 0 device dtype g = Fatal InvariantViolation.
Proof. reflexivity. Qed.

Lemma traced_result fuel name size device dtype g b g' :
  IsTensorInitialized P fuel name size device dtype g = Ok (b, g') ->
  exists trace,
    IsTensorInitialized_traced P fuel name size device dtype g
      = Ok (b, g', trace).
Proof.
  unfold IsTensorInitialized. intros H.
  destruct (IsTensorInitialized_traced P fuel name size device dtype g)
    as [[[b0 g0] tr]| | |]; outcome_simpl; try discriminate.
  injection H as <- <-. eauto.
Qed.

Lemma alloc_staging_inv name size device g g2 :
  alloc_staging P name size device g = Ok g2 ->
  next_key_ g2 = next_key_ g /\
  _partition_bound g2 = _partition_bound g /\
  (forall other, name <> other ->
     _name_to_cxt g2 !! other = _name_to_cxt g !! other).
Proof.
  unfold alloc_staging. intros H.
  destruct (device =? CPU_DEVICE_ID P); [by injection H as <-|].
  destruct (cudaHostAlloc P size); [|discriminate].
  injection H as <-. cbn [set_name_to_cxt next_key_ _partition_bound _name_to_cxt].
  repeat split. intros other Hne. by rewrite lookup_insert_ne.
Qed.

(** Any call that returns leaves [name] in the table, with the size it was
  called with positive. *)
Lemma call_registers fuel name size device dtype g b g' :
  IsTensorInitialized P fuel name size device dtype g = Ok (b, g') ->
  is_Some (_name_to_cxt g' !! name) /\ 0 < size.
Proof.
  intros H. apply traced_result in H as [trace H].
  unfold IsTensorInitialized_traced in H.
  destruct (Z.ltb_spec 0 size) as [Hsize|]; [|discriminate].
  split; [|exact Hsize].
  destruct (_name_to_cxt g !! name) as [ctx|] eqn:Hctx.
  - injection H as <- <- <-. rewrite Hctx. eauto.
  - destruct (alloc_staging P name size device _) as [g2| | |];
      outcome_simpl; try discriminate.
    destruct (partition_loop fuel name size 0 g2 []) as [[[acc g3] tr]|] eqn:Hrun;
      [|discriminate].
    injection H as <- <- <-.
    eapply partition_loop_registers; [exact Hrun|]. left.
    change (wrap64 0) with 0. by apply Z.ltb_lt.
Qed.

(** C4, as amended: a second call with an already registered name and a
  size different from the first one returns [true] and leaves the state as
  it was, whenever the new size is positive; the size is not compared with
  the one of the first registration, and nothing fatal is raised. *)
Theorem C4_different_size_is_accepted fuel1 fuel2 name size1 size2
  dev1 dev2 dt1 dt2 g b g1 :
  IsTensorInitialized P fuel1 name size1 dev1 dt1 g = Ok (b, g1) ->
  size2 <> size1 -> 0 < size2 ->
  IsTensorInitialized P fuel2 name size2 dev2 dt2 g1 = Ok (true, g1).
Proof.
  intros Hfirst _ Hpos. apply call_registers in Hfirst as [Hreg _].
  unfold IsTensorInitialized.
  by rewrite (registered_returns_true fuel2 name size2 dev2 dt2 g1 Hreg Hpos).
Qed.

(** C5: a second call with the same name and the same size returns [true]
  and the state after it is the state before it: key lists, buffer lengths
  and the key counter are untouched. *)
Theorem C5_same_size_is_idempotent fuel1 fuel2 name size dev1 dev2 dt1 dt2
  g b g1 :
  IsTensorInitialized P fuel1 name size dev1 dt1 g = Ok (b, g1) ->
  IsTensorInitialized P fuel2 name size dev2 dt2 g1 = Ok (true, g1).
Proof.
  intros Hfirst. apply call_registers in Hfirst as [Hreg Hpos].
  unfold IsTensorInitialized.
  by rewrite (registered_returns_true fuel2 name size dev2 dt2 g1 Hreg Hpos).
Qed.

(** C10, as amended: [GetContextFromName] on a name that was never
  registered puts an empty context (no keys, no staging buffer) into the
  table and returns it; the table has one entry more; [GetTensorCount], a
  [uint32_t], goes up by one modulo 2^32, that is by one whenever the count
  before is below 2^32 - 1; and every later [IsTensorInitialized] for that
  name with a positive size answers [true] without partitioning: the state,
  and with it the empty key list, stays as it is. *)
Theorem C10_lookup_registers_empty_context name g :
  _name_to_cxt g !! name = None ->
  let ctx := (GetContextFromName name g).1 in
  let g' := (GetContextFromName name g).2 in
  ctx = empty_context /\
  key_list ctx = [] /\ cpubuff ctx = None /\
  _name_to_cxt g' !! name = Some empty_context /\
  stdpp.base.size (_name_to_cxt g') = S (stdpp.base.size (_name_to_cxt g)) /\
  GetTensorCount g' = wrap32 (GetTensorCount g + 1) /\
  (GetTensorCount g + 1 < 2 ^ 32 -> GetTensorCount g' = GetTensorCount g + 1) /\
  next_key_ g' = next_key_ g /\
  (forall fuel size device dtype, 0 < size ->
     IsTensorInitialized P fuel name size device dtype g' = Ok (true, g')).
Proof.
  intros Hfresh ctx g'. subst ctx g'. unfold GetContextFromName.
  cbn [fst snd]. unfold context_at. rewrite Hfresh.
  cbn [default from_option set_name_to_cxt _name_to_cxt next_key_].
  assert (Hsize : stdpp.base.size (<[name:=empty_context]> (_name_to_cxt g))
                  = S (stdpp.base.size (_name_to_cxt g)))
    by (by apply map_size_insert_None).
  assert (Hcount : GetTensorCount
            (set_name_to_cxt (<[name:=empty_context]> (_name_to_cxt g)) g)
            = wrap32 (GetTensorCount g + 1)).
  { unfold GetTensorCount. cbn [set_name_to_cxt _name_to_cxt].
    rewrite Hsize, wrap32_add_l. f_equal. lia. }
  split; [reflexivity|]. split; [reflexivity|]. split; [reflexivity|].
  split; [apply lookup_insert_eq|]. split; [exact Hsize|].
  split; [exact Hcount|].
  split.
  { intros Hsmall. rewrite Hcount. apply wrap32_small.
    unfold GetTensorCount in *. pose proof (wrap32_range
      (Z.of_nat (stdpp.base.size (_name_to_cxt g)))). lia. }
  split; [reflexivity|].
  intros fuel size device dtype Hpos. unfold IsTensorInitialized.
  rewrite registered_returns_true; [reflexivity| |exact Hpos].
  cbn [set_name_to_cxt _name_to_cxt]. rewrite lookup_insert_eq. eauto.
Qed.

End RegistrationFacts.

(** The claim of C4 fails: after "t" was registered with 8 bytes, a call
  with 16 bytes returns [true]; no invariant violation is raised. *)
Lemma C4_size_mismatch_not_detected :
  exists g1,
    IsTensorInitialized example_platform 10 "t" 8 (-1) BYTEPS_UINT8
      (initial_state example_platform) = Ok (false, g1) /\
    IsTensorInitialized example_platform 10 "t" 16 (-1) BYTEPS_UINT8 g1
      = Ok (true, g1) /\
    IsTensorInitialized example_platform 10 "t" 16 (-1) BYTEPS_UINT8 g1
      <> Fatal InvariantViolation.
Proof.
  eexists. split; [vm_compute; reflexivity|].
  split; [vm_compute; reflexivity|discriminate].
Qed.

Lemma C4_different_size_is_accepted_witness :
  exists g1,
    IsTensorInitialized example_platform 10 "t" 8 (-1) BYTEPS_UINT8
      (initial_state example_platform) = Ok (false, g1) /\
    16 <> 8 /\ 0 < 16 /\
    IsTensorInitialized example_platform 10 "t" 16 0 BYTEPS_FLOAT32 g1
      = Ok (true, g1).
Proof.
  eexists. split; [vm_compute; reflexivity|].
  split; [lia|]. split; [lia|].
  apply (C4_different_size_is_accepted example_platform 10 10 "t" 8 16
           (-1) 0 BYTEPS_UINT8 BYTEPS_FLOAT32
           (initial_state example_platform) false);
    [vm_compute; reflexivity | lia | lia].
Defined.

Lemma C5_same_size_is_idempotent_witness :
  exists g1,
    IsTensorInitialized example_platform 10 "grad1" 3000000 0 BYTEPS_FLOAT32
      (initial_state example_platform) = Ok (false, g1) /\
    IsTensorInitialized example_platform 10 "grad1" 3000000 0 BYTEPS_FLOAT32 g1
      = Ok (true, g1).
Proof.
  eexists. split; [vm_compute; reflexivity|].
  apply (C5_same_size_is_idempotent example_platform 10 10 "grad1" 3000000
           0 0 BYTEPS_FLOAT32 BYTEPS_FLOAT32
           (initial_state example_platform) false).
  vm_compute; reflexivity.
Defined.

(** The claim of C10 fails on the count when the table holds 2^32 - 1
  contexts: the lookup of one more name takes [GetTensorCount] from
  4294967295 to 0.  And the later [IsTensorInitialized] does not answer
  [true] when it is called with size 0: that call is fatal. *)
Lemma C10_count_wraps_at_2_32 :
  let g := set_name_to_cxt crowded_registry (initial_state example_platform) in
  (_name_to_cxt g !! "4294967295"%string = None /\
   GetTensorCount g = 4294967295 /\
   GetTensorCount (GetContextFromName "4294967295" g).2 = 0) /\
  IsTensorInitialized example_platform 10 "ghost" 0 (-1) BYTEPS_UINT8
    (GetContextFromName "ghost" (initial_state example_platform)).2
  = Fatal InvariantViolation.
Proof.
  cbv zeta. split; [|reflexivity]. cbn [set_name_to_cxt _name_to_cxt]. unfold crowded_registry.
  remember (Z.to_nat 4294967295) as n eqn:En.
  assert (Hn : Z.of_nat n = 4294967295) by (subst n; by apply Z2Nat.id).
  clear En.
  set (l := (fun i : nat => (pretty (N.of_nat i), empty_context)) <$> seq 0 n).
  assert (Hkeys : l.*1 = (fun i : nat => pretty (N.of_nat i)) <$> seq 0 n).
  { subst l. rewrite <- list_fmap_compose. reflexivity. }
  assert (Hinj : Inj (=) (=) (fun i : nat => pretty (N.of_nat i))).
  { intros i j Hij. apply (inj pretty) in Hij. lia. }
  assert (Hnodup : NoDup l.*1).
  { rewrite Hkeys. apply (NoDup_fmap_2 _). apply NoDup_seq. }
  assert (Hfresh : (list_to_map l : gmap string BPSContext)
                     !! "4294967295"%string = None).
  { apply not_elem_of_list_to_map_1. rewrite Hkeys.
    intros Hin. apply list_elem_of_fmap in Hin as (i & Hi & Hseq).
    apply elem_of_seq in Hseq.
    change "4294967295"%string with (pretty 4294967295%N) in Hi.
    apply (inj pretty) in Hi. lia. }
  assert (Hsize : stdpp.base.size (list_to_map l : gmap string BPSContext) = n).
  { rewrite map_size_list_to_map by exact Hnodup.
    subst l. by rewrite length_fmap, length_seq. }
  split; [exact Hfresh|].
  split; [unfold GetTensorCount; cbn [set_name_to_cxt _name_to_cxt];
          rewrite Hsize, Hn; reflexivity|].
  unfold GetContextFromName, GetTensorCount, context_at.
  cbn [snd set_name_to_cxt _name_to_cxt]. rewrite Hfresh.
  cbn [default from_option].
  rewrite map_size_insert_None by exact Hfresh. rewrite Hsize.
  replace (Z.of_nat (S n)) with 4294967296 by lia. reflexivity.
Qed.

Lemma C10_lookup_registers_empty_context_witness :
  _name_to_cxt (initial_state example_platform) !! "ghost"%string = None /\
  GetTensorCount (initial_state example_platform) = 0 /\
  GetTensorCount
    (GetContextFromName "ghost" (initial_state example_platform)).2 = 1 /\
  IsTensorInitialized example_platform 10 "ghost" 64 (-1) BYTEPS_UINT8
    (GetContextFromName "ghost" (initial_state example_platform)).2
  = Ok (true, (GetContextFromName "ghost" (initial_state example_platform)).2).
Proof.
  split; [reflexivity|]. split; [reflexivity|].
  pose proof (C10_lookup_registers_empty_context example_platform "ghost"
                (initial_state example_platform) eq_refl) as H.
  cbv zeta in H.
  destruct H as (_ & _ & _ & _ & _ & _ & Hcount & _ & Hlater).
  split; [apply Hcount; vm_compute; reflexivity|].
  apply Hlater. lia.
Defined.

(** ** A tensor too large for the [int] accumulator

  After a default Init the bound is 512000 elements, 2048000 bytes once the
  first 32-bit tensor is registered. *)

(** C1 at a tensor of 3 GiB: the loop stops after 1049 keys whose chunks add
  up to 2148352000 bytes, where covering the 3221225472 bytes takes
  ceil(S/B) = 1573 chunks.  The sum leaves the range of [int] in iteration
  1049, [accumulated] turns negative and compares above [size]. *)
Theorem C1_three_GiB_tensor_is_cut_short :
  exists g0 g' trace ctx,
    Init example_platform None example_topology
      (initial_state example_platform) = Ok g0 /\
    IsTensorInitialized_traced example_platform 2000 "grad" 3221225472 (-1)
      BYTEPS_FLOAT32 g0 = Ok (false, g', trace) /\
    _partition_bound g' = 2048000 /\
    _name_to_cxt g' !! "grad"%string = Some ctx /\
    key_list ctx = trace.*1 /\
    length (key_list ctx) = 1049%nat /\
    ceil_div 3221225472 2048000 = 1573 /\
    total trace.*2 = 2148352000 /\
    forallb (fun c => c <=? 2048000) trace.*2 = true.
Proof.
  do 4 eexists.
  split; [vm_compute; reflexivity|].
  split; [vm_compute; reflexivity|].
  split; [vm_compute; reflexivity|].
  split; [vm_compute; reflexivity|].
  split; [vm_compute; reflexivity|].
  split; [vm_compute; reflexivity|].
  split; [vm_compute; reflexivity|].
  split; [vm_compute; reflexivity|].
  vm_compute; reflexivity.
Qed.

(** C9 at the same tensor: with the positive bound 2048000 the loop does
  terminate, after 1049 iterations, but with [accumulated] = -2146615296,
  which is not [size]; 1072873472 bytes are left unassigned. *)
Theorem C9_loop_exits_before_size_is_reached :
  exists g0 g' trace,
    Init example_platform None example_topology
      (initial_state example_platform) = Ok g0 /\
    partition_loop 2000 "grad" 3221225472 0
      (set_partition_bound 2048000 g0) [] = Some (-2146615296, g', trace) /\
    length trace = 1049%nat /\
    wrap64 (-2146615296) <> 3221225472 /\
    3221225472 - total trace.*2 = 1072873472.
Proof.
  do 3 eexists.
  split; [vm_compute; reflexivity|].
  split; [vm_compute; reflexivity|].
  split; [vm_compute; reflexivity|].
  split; [vm_compute; discriminate|].
  vm_compute; reflexivity.
Qed.

(** ** Keys issued by registrations *)

Section KeyFacts.
Variable P : Platform.

Lemma set_partition_bound_same g :
  set_partition_bound (_partition_bound g) g = g.
Proof. by destruct g. Qed.

(** One call: the keys in its trace are the next counter values. *)
Lemma traced_keys fuel name size device dtype g b g' trace :
  0 <= next_key_ g < 2 ^ 32 ->
  IsTensorInitialized_traced P fuel name size device dtype g
    = Ok (b, g', trace) ->
  trace.*1 = iota_keys (next_key_ g) (length trace) /\
  next_key_ g' = wrap32 (next_key_ g + Z.of_nat (length trace)).
Proof.
  intros Hk H. unfold IsTensorInitialized_traced in H.
  destruct (0 <? size); [|discriminate].
  destruct (_name_to_cxt g !! name) as [ctx|].
  - injection H as <- <- <-. split; [reflexivity|].
    rewrite Z.add_0_r. symmetry. by apply wrap32_small.
  - set (g1 := if next_key_ g =? 0 then _ else g) in H.
    assert (Hk1 : next_key_ g1 = next_key_ g)
      by (subst g1; by destruct (next_key_ g =? 0)).
    destruct (alloc_staging P name size device g1) as [g2| | |] eqn:Halloc;
      outcome_simpl; try discriminate.
    apply alloc_staging_inv in Halloc as (Hk2 & _ & _).
    destruct (partition_loop fuel name size 0 g2 []) as [[[acc g3] tr]|] eqn:Hrun;
      [|discriminate].
    injection H as <- <- <-.
    apply partition_loop_state in Hrun as (new & -> & Hkeys & -> & _ & _);
      [|rewrite Hk2, Hk1; exact Hk].
    rewrite Hk2, Hk1 in *. cbn [app]. split; [exact Hkeys|reflexivity].
Qed.

(** The keys in the trace of a first registration are the key list of the
  tensor afterwards, whatever its size. *)
Lemma registration_key_list fuel name size device dtype g g' trace :
  0 <= next_key_ g < 2 ^ 32 ->
  _name_to_cxt g !! name = None ->
  IsTensorInitialized_traced P fuel name size device dtype g
    = Ok (false, g', trace) ->
  exists ctx, _name_to_cxt g' !! name = Some ctx /\ key_list ctx = trace.*1.
Proof.
  intros Hk Hfresh H. unfold IsTensorInitialized_traced in H.
  destruct (Z.ltb_spec 0 size) as [Hsize|]; [|discriminate].
  rewrite Hfresh in H.
  set (g1 := if next_key_ g =? 0 then _ else g) in H.
  assert (Hg1 : next_key_ g1 = next_key_ g /\ _name_to_cxt g1 = _name_to_cxt g)
    by (subst g1; by destruct (next_key_ g =? 0)).
  destruct Hg1 as [Hk1 Hm1].
  destruct (alloc_staging P name size device g1) as [g2| | |] eqn:Halloc;
    outcome_simpl; try discriminate.
  assert (Hempty : key_list (context_at name (_name_to_cxt g2)) = []).
  { unfold alloc_staging in Halloc.
    destruct (device =? CPU_DEVICE_ID P).
    - injection Halloc as <-. unfold context_at. by rewrite Hm1, Hfresh.
    - destruct (cudaHostAlloc P size); [|discriminate].
      injection Halloc as <-. cbn [set_name_to_cxt _name_to_cxt].
      unfold context_at. by rewrite lookup_insert_eq, Hm1, Hfresh. }
  apply alloc_staging_inv in Halloc as (Hk2 & _ & _).
  destruct (partition_loop fuel name size 0 g2 []) as [[[acc g3] tr]|] eqn:Hrun;
    [|discriminate].
  injection H as <- <-.
  apply partition_loop_state in Hrun as (new & -> & _ & -> & Hsome & _);
    [|rewrite Hk2, Hk1; exact Hk].
  cbn [app set_next_key set_name_to_cxt _name_to_cxt].
  destruct new as [|[k0 c0] new0].
  - exfalso. apply Hsome; [|reflexivity].
    change (wrap64 0) with 0. by apply Z.ltb_lt.
  - change (((k0, c0) :: new0).*1) with (k0 :: new0.*1).
    rewrite push_keys_lookup, Hempty. eexists. split; reflexivity.
Qed.

Lemma register_all_keys fuel reqs :
  forall g g' issued,
  0 <= next_key_ g < 2 ^ 32 ->
  register_all P fuel reqs g = Ok (g', issued) ->
  issued = iota_keys (next_key_ g) (length issued) /\
  next_key_ g' = wrap32 (next_key_ g + Z.of_nat (length issued)).
Proof.
  induction reqs as [|r reqs IH]; intros g g' issued Hk H.
  - injection H as <- <-. split; [reflexivity|].
    rewrite Z.add_0_r. symmetry. by apply wrap32_small.
  - cbn [register_all] in H.
    destruct (IsTensorInitialized_traced P fuel (reg_name r) (reg_size r)
                (reg_device r) (reg_dtype r) g) as [[[b g1] tr]| | |] eqn:Hcall;
      outcome_simpl; try discriminate.
    destruct (register_all P fuel reqs g1) as [[g2 rest]| | |] eqn:Hrest;
      outcome_simpl; try discriminate.
    injection H as <- <-.
    apply traced_keys in Hcall as [Hkeys Hk1]; [|exact Hk].
    apply IH in Hrest as [Hrest Hk2]; [|rewrite Hk1; apply wrap32_range].
    rewrite length_app, length_fmap, Nat2Z.inj_add.
    split.
    + rewrite iota_keys_app, <- Hk1, <- Hrest. f_equal.
      exact Hkeys.
    + rewrite Hk2, Hk1, wrap32_add_l. f_equal. lia.
Qed.

Lemma iota_keys_no_wrap k n (i : nat) x :
  0 <= k -> k + Z.of_nat n <= 2 ^ 32 ->
  iota_keys k n !! i = Some x -> x = k + Z.of_nat i /\ (i < n)%nat.
Proof.
  intros Hk Hn Hx.
  assert (Hi : (i < n)%nat).
  { apply lookup_lt_Some in Hx. by rewrite iota_keys_length in Hx. }
  rewrite iota_keys_lookup in Hx by exact Hi. injection Hx as <-.
  split; [apply wrap32_small; lia|exact Hi].
Qed.

Lemma alloc_staging_ok name size device g :
  device = CPU_DEVICE_ID P \/ is_Some (cudaHostAlloc P size) ->
  _name_to_cxt g !! name = None ->
  exists g2, alloc_staging P name size device g = Ok g2 /\
             key_list (context_at name (_name_to_cxt g2)) = [].
Proof.
  intros Hdev Hfresh. unfold alloc_staging.
  destruct (Z.eqb_spec device (CPU_DEVICE_ID P)) as [_|Hne].
  - exists g. split; [reflexivity|]. unfold context_at. by rewrite Hfresh.
  - destruct Hdev as [?|[p Hp]]; [done|]. rewrite Hp. eexists.
    split; [reflexivity|]. cbn [set_name_to_cxt _name_to_cxt].
    unfold context_at. rewrite lookup_insert_eq, Hfresh. reflexivity.
Qed.

(** The first registration of a tensor of at most [INT_MAX] bytes, on the
  CPU or with a staging buffer that could be allocated: it returns [false]
  after [n] iterations, [n] being the number with
  [(n-1)*B < size <= n*B]; the chunks are positive, at most [B], and add
  up to [size]; the key list of the tensor holds the [n] keys issued. *)
Lemma registration_small fuel name size device dtype g (n : nat) :
  _name_to_cxt g !! name = None ->
  0 <= next_key_ g < 2 ^ 32 ->
  let B := if next_key_ g =? 0
           then ConvertBoundToBytes dtype (_partition_bound g)
           else _partition_bound g in
  0 < B -> 0 < size <= INT_MAX ->
  (Z.of_nat n - 1) * B < size <= Z.of_nat n * B ->
  (n <= fuel)%nat ->
  device = CPU_DEVICE_ID P \/ is_Some (cudaHostAlloc P size) ->
  exists g' trace ctx,
    IsTensorInitialized_traced P fuel name size device dtype g
      = Ok (false, g', trace) /\
    trace.*1 = iota_keys (next_key_ g) n /\
    length trace = n /\
    total trace.*2 = size /\
    Forall (fun c => 0 < c <= B) trace.*2 /\
    next_key_ g' = wrap32 (next_key_ g + Z.of_nat n) /\
    _partition_bound g' = B /\
    _name_to_cxt g' !! name = Some ctx /\
    key_list ctx = trace.*1 /\
    (forall other, name <> other ->
       _name_to_cxt g' !! other = _name_to_cxt g !! other).
Proof.
  intros Hfresh Hk B HB Hsize Hn Hfuel Hdev.
  unfold IsTensorInitialized_traced.
  destruct (Z.ltb_spec 0 size); [|lia]. rewrite Hfresh.
  set (g1 := if next_key_ g =? 0 then _ else g).
  assert (Hg1 : next_key_ g1 = next_key_ g /\ _partition_bound g1 = B /\
                _name_to_cxt g1 = _name_to_cxt g)
    by (subst g1 B; by destruct (next_key_ g =? 0)).
  destruct Hg1 as (Hk1 & Hb1 & Hm1).
  destruct (alloc_staging_ok name size device g1 Hdev) as (g2 & Halloc & Hempty);
    [by rewrite Hm1|].
  rewrite Halloc. outcome_simpl.
  apply alloc_staging_inv in Halloc as (Hk2 & Hb2 & Hm2).
  destruct (partition_loop_small name size B HB (proj2 Hsize) n fuel 0 g2 [])
    as (g3 & new & Hrun & Hlen & Hsum & Hall);
    [by rewrite Hb2 | lia | by rewrite Z.sub_0_r | exact Hfuel|].
  rewrite Hrun. cbn [app] in *.
  apply partition_loop_state in Hrun as (new' & Hnew & Hkeys & Hg3 & _ & _);
    [|rewrite Hk2, Hk1; exact Hk].
  cbn [app] in Hnew. subst new'. rewrite Hk2, Hk1, Hlen in *.
  assert (Hlookup : _name_to_cxt g3 !! name
                    = Some (mkContext new.*1
                              (cpubuff (context_at name (_name_to_cxt g2)))
                              (buff_len (context_at name (_name_to_cxt g2))))).
  { rewrite Hg3. cbn [set_next_key set_name_to_cxt _name_to_cxt].
    destruct new as [|[k0 c0] new0].
    - cbn [length] in Hlen. subst n. cbn in Hn. lia.
    - change (((k0, c0) :: new0).*1) with (k0 :: new0.*1).
      rewrite push_keys_lookup, Hempty. reflexivity. }
  eexists g3, new, _.
  split; [reflexivity|]. split; [exact Hkeys|]. split; [exact Hlen|].
  split; [lia|]. split; [exact Hall|].
  split; [by rewrite Hg3|].
  split; [rewrite Hg3; cbn [set_next_key set_name_to_cxt _partition_bound];
          by rewrite Hb2|].
  split; [exact Hlookup|]. split; [reflexivity|].
  intros other Hne. rewrite Hg3.
  cbn [set_next_key set_name_to_cxt _name_to_cxt].
  rewrite push_keys_lookup_ne by exact Hne. rewrite Hm2 by exact Hne.
  by rewrite Hm1.
Qed.

Lemma ceil_div_bounds size B :
  0 < B -> 0 < size ->
  0 < ceil_div size B /\
  (ceil_div size B - 1) * B < size <= ceil_div size B * B.
Proof.
  intros HB Hsize. unfold ceil_div.
  pose proof (Z.div_mod (size + B - 1) B ltac:(lia)) as Hdm.
  pose proof (Z.mod_pos_bound (size + B - 1) B HB) as Hmod.
  assert (0 < (size + B - 1) / B)
    by (apply Z.div_str_pos; lia).
  nia.
Qed.

(** The partition coverage property holds for every tensor of at most
  [INT_MAX] bytes: the sum of the chunks is [size], no chunk exceeds the
  bound in bytes, and there are ceil(size/B) keys. *)
Lemma small_tensor_is_covered name size device dtype g :
  _name_to_cxt g !! name = None ->
  0 <= next_key_ g < 2 ^ 32 ->
  let B := if next_key_ g =? 0
           then ConvertBoundToBytes dtype (_partition_bound g)
           else _partition_bound g in
  0 < B -> 0 < size <= INT_MAX ->
  device = CPU_DEVICE_ID P \/ is_Some (cudaHostAlloc P size) ->
  forall fuel, (Z.to_nat (ceil_div size B) <= fuel)%nat ->
  exists g' trace ctx,
    IsTensorInitialized_traced P fuel name size device dtype g
      = Ok (false, g', trace) /\
    _name_to_cxt g' !! name = Some ctx /\
    key_list ctx = trace.*1 /\
    Z.of_nat (length (key_list ctx)) = ceil_div size B /\
    total trace.*2 = size /\
    Forall (fun c => 0 < c <= B) trace.*2.
Proof.
  intros Hfresh Hk B HB Hsize Hdev fuel Hfuel.
  destruct (ceil_div_bounds size B HB (proj1 Hsize)) as [Hpos Hceil].
  destruct (registration_small fuel name size device dtype g
              (Z.to_nat (ceil_div size B)) Hfresh Hk HB Hsize)
    as (g' & trace & ctx & Hrun & Hkeys & Hlen & Hsum & Hall & _ & _ & Hctx & Hkl & _);
    [rewrite Z2Nat.id by lia; exact Hceil | exact Hfuel | exact Hdev |].
  exists g', trace, ctx.
  split; [exact Hrun|]. split; [exact Hctx|]. split; [exact Hkl|].
  split; [|split; [exact Hsum|exact Hall]].
  rewrite Hkl, length_fmap, Hlen. apply Z2Nat.id. lia.
Qed.

(** C2, as amended: along any sequence of registrations, and as long as the
  32-bit counter has not wrapped (it started at [next_key_ g] and handed
  out [length issued] keys, staying within 2^32), the keys come out in
  strictly increasing order: a key issued later is greater than every key
  issued before, no key is issued twice, and none is below the counter
  value at the start. *)
Theorem C2_keys_increase_until_counter_wraps fuel reqs g g' issued :
  0 <= next_key_ g < 2 ^ 32 ->
  register_all P fuel reqs g = Ok (g', issued) ->
  next_key_ g + Z.of_nat (length issued) <= 2 ^ 32 ->
  (forall (i j : nat) ki kj, (i < j)%nat ->
     issued !! i = Some ki -> issued !! j = Some kj -> ki < kj) /\
  NoDup issued /\
  (forall k, k ∈ issued -> next_key_ g <= k < 2 ^ 32).
Proof.
  intros Hk Hrun Hwrap.
  apply register_all_keys in Hrun as [Hissued _]; [|exact Hk].
  assert (Hat : forall (i : nat) x, issued !! i = Some x ->
                  x = next_key_ g + Z.of_nat i /\ (i < length issued)%nat).
  { intros i x Hx. rewrite Hissued in Hx.
    eapply iota_keys_no_wrap; [lia|exact Hwrap|exact Hx]. }
  split; [|split].
  - intros i j ki kj Hij Hi Hj.
    apply Hat in Hi as [-> _]. apply Hat in Hj as [-> _]. lia.
  - apply NoDup_alt. intros i j x Hi Hj.
    apply Hat in Hi as [-> _]. apply Hat in Hj as [Heq _]. lia.
  - intros k Hin. apply list_elem_of_lookup in Hin as [i Hi].
    apply Hat in Hi as [-> Hlt]. lia.
Qed.

End KeyFacts.

Lemma C2_keys_increase_until_counter_wraps_witness :
  exists g',
    0 <= next_key_ (initial_state example_platform) < 2 ^ 32 /\
    register_all example_platform 10
      [mkRegistration "grad0" 1000000 (-1) BYTEPS_FLOAT32;
       mkRegistration "grad1" 3000000 0 BYTEPS_FLOAT32]
      (initial_state example_platform) = Ok (g', [0; 1; 2]) /\
    0 + Z.of_nat (length [0; 1; 2]) <= 2 ^ 32 /\
    NoDup [0; 1; 2].
Proof.
  eexists.
  split; [vm_compute; split; [discriminate|reflexivity]|].
  split; [vm_compute; reflexivity|].
  split; [vm_compute; discriminate|].
  eapply (C2_keys_increase_until_counter_wraps example_platform 10
            [mkRegistration "grad0" 1000000 (-1) BYTEPS_FLOAT32;
             mkRegistration "grad1" 3000000 0 BYTEPS_FLOAT32]
            (initial_state example_platform) _ [0; 1; 2]).
  - vm_compute; split; [discriminate|reflexivity].
  - vm_compute; reflexivity.
  - vm_compute; discriminate.
Defined.

(** The claim of C2 fails once 2^32 keys have been handed out.  With
  BYTEPS_PARTITION_BOUND=1, three byte tensors of 2147483647 bytes take
  2147483647 keys each; during the third registration the counter passes
  2^32 - 1 and starts again at 0, so key 0, the first key ever issued, is
  issued a second time. *)
Lemma C2_counter_wraps_and_reissues_key_0 :
  exists g0 fuel g' issued (j : nat),
    Init example_platform (Some "1"%string) example_topology
      (initial_state example_platform) = Ok g0 /\
    register_all example_platform fuel
      [mkRegistration "a" 2147483647 (-1) BYTEPS_UINT8;
       mkRegistration "b" 2147483647 (-1) BYTEPS_UINT8;
       mkRegistration "c" 2147483647 (-1) BYTEPS_UINT8] g0
      = Ok (g', issued) /\
    (0 < j)%nat /\
    issued !! 0%nat = Some 0 /\
    issued !! j = Some 0.
Proof.
  remember (Z.to_nat 2147483647) as n eqn:En.
  assert (Hn : Z.of_nat n = 2147483647) by (subst n; by apply Z2Nat.id).
  clear En.
  set (g0 := mkGlobal true false 0 0 1 1 1 ∅
               (replicate 4 (Some ScheduledQueue.new_queue)) ∅ 0).
  assert (Hsz : 0 < 2147483647 <= INT_MAX) by (unfold INT_MAX; lia).
  (* first tensor: keys 0 .. 2^31 - 2 *)
  destruct (registration_small example_platform n "a" 2147483647 (-1)
              BYTEPS_UINT8 g0 n eq_refl ltac:(cbn; lia))
    as (g1 & t1 & _ & Hrun1 & Hkeys1 & Hlen1 & _ & _ & Hk1 & Hb1 & _ & _ & Hm1);
    [ by vm_compute | exact Hsz
    | change ((Z.of_nat n - 1) * 1 < 2147483647 <= Z.of_nat n * 1); lia
    | lia | by left | ].
  change (next_key_ g0) with 0 in Hk1, Hkeys1.
  change (_partition_bound g1 = 1) in Hb1.
  assert (Hk1' : next_key_ g1 = 2147483647)
    by (rewrite Hk1, Hn; reflexivity).
  (* second tensor: keys 2^31 - 1 .. 2^32 - 3 *)
  pose proof (registration_small example_platform n "b" 2147483647 (-1)
                BYTEPS_UINT8 g1 n) as H2.
  cbv zeta in H2. rewrite Hk1', Hb1 in H2.
  change (2147483647 =? 0) with false in H2. cbv iota in H2.
  destruct H2
    as (g2 & t2 & _ & Hrun2 & Hkeys2 & Hlen2 & _ & _ & Hk2 & Hb2 & _ & _ & Hm2);
    [ by rewrite Hm1 | lia | lia | exact Hsz | lia | lia | by left | ].
  assert (Hk2' : next_key_ g2 = 4294967294)
    by (rewrite Hk2, Hn; reflexivity).
  (* third tensor: keys 2^32 - 2, 2^32 - 1, 0, 1, ... *)
  pose proof (registration_small example_platform n "c" 2147483647 (-1)
                BYTEPS_UINT8 g2 n) as H3.
  cbv zeta in H3. rewrite Hk2', Hb2 in H3.
  change (4294967294 =? 0) with false in H3. cbv iota in H3.
  destruct H3
    as (g3 & t3 & _ & Hrun3 & Hkeys3 & Hlen3 & _);
    [ by rewrite Hm2, Hm1 | lia | lia | exact Hsz | lia | lia | by left | ].
  exists g0, n, g3, (t1.*1 ++ t2.*1 ++ t3.*1 ++ []), (n + n + 2)%nat.
  split; [vm_compute; reflexivity|].
  split.
  { cbn [register_all reg_name reg_size reg_device reg_dtype].
    rewrite Hrun1. outcome_simpl. rewrite Hrun2. outcome_simpl.
    rewrite Hrun3. outcome_simpl. reflexivity. }
  split; [lia|].
  rewrite Hkeys1, Hkeys2, Hkeys3.
  split.
  - rewrite lookup_app_l by (rewrite iota_keys_length; lia).
    rewrite iota_keys_lookup by lia. reflexivity.
  - rewrite lookup_app_r by (rewrite iota_keys_length; lia).
    rewrite lookup_app_r by (rewrite !iota_keys_length; lia).
    rewrite !iota_keys_length.
    rewrite lookup_app_l by (rewrite iota_keys_length; lia).
    replace (n + n + 2 - n - n)%nat with 2%nat by lia.
    rewrite iota_keys_lookup by lia. reflexivity.
Qed.

(** ** Key-to-server encoding *)

Lemma wrap64_add_r a b : wrap64 (a + wrap64 b) = wrap64 (a + b).
Proof. unfold wrap64. apply Zplus_mod_idemp_r. Qed.

Lemma set_ps_kv_insert_same key pskv g :
  ps_kv_ g !! key = Some pskv ->
  set_ps_kv (<[key := pskv]> (ps_kv_ g)) g = g.
Proof. intros H. rewrite insert_id by exact H. by destruct g. Qed.

(** A call for a key that already has its wire key: the stored size is
  compared with [len], nothing else is looked at. *)
Lemma EncodeDefaultKey_known krs key len g pskv k ks :
  ps_kv_ g !! key = Some pskv -> keys pskv = k :: ks ->
  EncodeDefaultKey krs key len g =
    if wrap64 (size pskv) =? len then Ok (pskv, g)
    else Fatal InvariantViolation.
Proof.
  intros Hkv Hkeys. unfold EncodeDefaultKey. rewrite Hkv.
  cbn [default from_option id]. rewrite Hkeys.
  by rewrite set_ps_kv_insert_same.
Qed.

(** The C++ remainder is the mathematical one whenever it is not
  negative. *)
Lemma rem_nonneg_is_mod a n : 0 < n -> 0 <= Z.rem a n -> Z.rem a n = a mod n.
Proof.
  intros Hn Hr. destruct (Z.le_gt_cases 0 a) as [Ha|Ha].
  - apply Z.rem_mod_nonneg; lia.
  - pose proof (Z.rem_nonpos a n ltac:(lia) ltac:(lia)) as Hle.
    assert (Hz : Z.rem a n = 0) by lia.
    rewrite Hz. symmetry. apply Z.rem_divide in Hz; [|lia].
    apply Z.mod_divide in Hz; [exact Hz|lia].
Qed.

(** The first encoding of a key that returns assigns the key to server
  (key * 9973) mod num_servers, gives it the wire key "range start of that
  server plus key" (a 64-bit sum), and that wire key is below the server's
  range end; every later call for the key that returns hands back the very
  same assignment whatever ranges are advertised then, and a later call
  with the same length does return. *)
Lemma EncodeDefaultKey_assignment krs key len g pskv g' :
  keys (default empty_pskv (ps_kv_ g !! key)) = [] ->
  EncodeDefaultKey krs key len g = Ok (pskv, g') ->
  let num_servers := to_int (Z.of_nat (length krs)) in
  let server_id := (key * 9973) mod num_servers in
  0 < num_servers /\
  server_of key num_servers = server_id /\
  0 <= server_id < num_servers /\
  exists range_begin range_end wire_key,
    krs !! Z.to_nat server_id = Some (range_begin, range_end) /\
    keys pskv = [wire_key] /\
    wire_key = wrap64 (range_begin + key) /\
    (0 <= range_begin + key < 2 ^ 64 -> wire_key = range_begin + key) /\
    wire_key < range_end /\
    ps_kv_ g' !! key = Some pskv /\
    (forall krs2 len2 pskv2 g2,
       EncodeDefaultKey krs2 key len2 g' = Ok (pskv2, g2) ->
       pskv2 = pskv /\ g2 = g') /\
    (0 <= len <= INT_MAX ->
     forall krs2, EncodeDefaultKey krs2 key len g' = Ok (pskv, g')).
Proof.
  intros Hfresh Hrun n server_id. unfold EncodeDefaultKey in Hrun.
  rewrite Hfresh in Hrun. fold n in Hrun.
  destruct (Z.ltb_spec 0 n) as [Hn|]; [|discriminate].
  destruct (in_int_range (key * 9973)); [|discriminate].
  destruct (Z.leb_spec 0 (server_of key n)) as [Hs|]; [|discriminate].
  destruct (krs !! Z.to_nat (server_of key n)) as [[b e]|] eqn:Hrange;
    [|discriminate].
  destruct (Z.ltb_spec (wrap64 (b + wrap64 key)) e) as [Hlt|]; [|discriminate].
  injection Hrun as <- <-.
  assert (Hsrv : server_of key n = server_id)
    by (apply rem_nonneg_is_mod; [exact Hn|exact Hs]).
  rewrite Hsrv in *.
  split; [exact Hn|]. split; [reflexivity|].
  split; [subst server_id; apply Z.mod_pos_bound; exact Hn|].
  exists b, e, (wrap64 (b + wrap64 key)).
  rewrite wrap64_add_r in *. cbn [keys app].
  split; [exact Hrange|]. split; [reflexivity|]. split; [reflexivity|].
  split; [intros Hsmall; by apply wrap64_small|].
  split; [exact Hlt|].
  set (pskv' := mkPSKV _ _ _).
  assert (Hstored : ps_kv_ (set_ps_kv (<[key:=pskv']> (ps_kv_ g)) g) !! key
                    = Some pskv')
    by (cbn [set_ps_kv ps_kv_]; apply lookup_insert_eq).
  split; [exact Hstored|].
  split.
  - intros krs2 len2 pskv2 g2 Hagain.
    rewrite (EncodeDefaultKey_known krs2 key len2 _ pskv'
               (wrap64 (b + key)) [] Hstored eq_refl) in Hagain.
    destruct (wrap64 (size pskv') =? len2); [|discriminate].
    by injection Hagain as <- <-.
  - intros Hlen krs2.
    rewrite (EncodeDefaultKey_known krs2 key len _ pskv'
               (wrap64 (b + key)) [] Hstored eq_refl).
    subst pskv'. cbn [size]. rewrite to_int_small by exact Hlen.
    rewrite wrap64_small by (unfold INT_MAX in Hlen; lia).
    by rewrite Z.eqb_refl.
Qed.

(** The first encoding of a key does return whenever the product
  [key * 9973] fits an [int], there are servers, and the wire key falls
  below the range end of the chosen server; otherwise the range check ends
  the process. *)
Lemma EncodeDefaultKey_fresh krs key len g range_begin range_end :
  keys (default empty_pskv (ps_kv_ g !! key)) = [] ->
  0 <= key -> key * 9973 <= INT_MAX ->
  0 < Z.of_nat (length krs) <= INT_MAX ->
  krs !! Z.to_nat ((key * 9973) mod Z.of_nat (length krs))
    = Some (range_begin, range_end) ->
  let wire_key := wrap64 (range_begin + key) in
  let pskv := mkPSKV [wire_key]
                (lens (default empty_pskv (ps_kv_ g !! key)) ++ [to_int len])
                (to_int len) in
  EncodeDefaultKey krs key len g =
    if wire_key <? range_end
    then Ok (pskv, set_ps_kv (<[key := pskv]> (ps_kv_ g)) g)
    else Fatal InvariantViolation.
Proof.
  intros Hfresh Hkey Hprod Hlen Hrange wire_key pskv.
  unfold EncodeDefaultKey. rewrite Hfresh.
  rewrite (to_int_small (Z.of_nat (length krs))) by lia.
  destruct (Z.ltb_spec 0 (Z.of_nat (length krs))); [|lia].
  unfold in_int_range, INT_MIN. unfold INT_MAX in Hprod.
  destruct (Z.leb_spec (-2147483648) (key * 9973)); [|lia].
  destruct (Z.leb_spec (key * 9973) INT_MAX); [|unfold INT_MAX in *; lia].
  cbn [andb]. unfold server_of.
  rewrite Z.rem_mod_nonneg by lia.
  destruct (Z.leb_spec 0 ((key * 9973) mod Z.of_nat (length krs)))
    as [_|Hneg]; [|pose proof (Z.mod_pos_bound (key * 9973)
                                 (Z.of_nat (length krs)) ltac:(lia)); lia].
  rewrite Hrange, wrap64_add_r. reflexivity.
Qed.

Example EncodeDefaultKey_assignment_example :
  exists pskv g',
    EncodeDefaultKey [(0, 1000); (1000, 2000); (2000, 3000)] 7 4096
      (initial_state example_platform) = Ok (pskv, g') /\
    server_of 7 3 = 1 /\
    keys pskv = [1007] /\
    EncodeDefaultKey [(0, 1000); (1000, 2000)] 7 4096 g' = Ok (pskv, g').
Proof.
  do 2 eexists.
  split; [vm_compute; reflexivity|].
  split; [reflexivity|]. split; [reflexivity|].
  vm_compute; reflexivity.
Qed.

Lemma partition_loop_ps_kv fuel name size :
  forall accumulated g trace acc' g' trace',
  partition_loop fuel name size accumulated g trace = Some (acc', g', trace') ->
  ps_kv_ g' = ps_kv_ g.
Proof.
  induction fuel as [|fuel IH]; intros acc g tr acc' g' tr' Hrun;
    rewrite partition_loop_eq in Hrun;
    destruct (wrap64 acc <? size); try discriminate.
  - by injection Hrun as <- <- <-.
  - by apply IH in Hrun.
  - by injection Hrun as <- <- <-.
Qed.

(** Registration does not touch the encoding table. *)
Lemma registration_ps_kv P fuel name size device dtype g b g' trace :
  IsTensorInitialized_traced P fuel name size device dtype g
    = Ok (b, g', trace) ->
  ps_kv_ g' = ps_kv_ g.
Proof.
  unfold IsTensorInitialized_traced. intros H.
  destruct (0 <? size); [|discriminate].
  destruct (_name_to_cxt g !! name); [by injection H as <- <- <-|].
  set (g1 := if next_key_ g =? 0 then _ else g) in H.
  assert (Hg1 : ps_kv_ g1 = ps_kv_ g)
    by (subst g1; by destruct (next_key_ g =? 0)).
  unfold alloc_staging in H.
  destruct (device =? CPU_DEVICE_ID P); outcome_simpl.
  - destruct (partition_loop fuel name size 0 g1 []) as [[[acc g3] tr]|] eqn:Hrun;
      [|discriminate].
    injection H as <- <- <-. apply partition_loop_ps_kv in Hrun. congruence.
  - destruct (cudaHostAlloc P size); outcome_simpl; [|discriminate].
    destruct (partition_loop fuel name size 0 _ []) as [[[acc g3] tr]|] eqn:Hrun;
      [|discriminate].
    injection H as <- <- <-. apply partition_loop_ps_kv in Hrun.
    rewrite Hrun. exact Hg1.
Qed.

(** C3 at key 215330.  Under BYTEPS_PARTITION_BOUND=1024 a 32-bit tensor of
  900000000 bytes is cut into 219727 chunks of 4096 bytes, with the keys
  0 .. 219726.  For key 215330 the product [key * 9973] is 2147486090,
  above [INT_MAX]: the [int] multiplication of line 245 overflows and the
  call has no defined result, where the claim puts the key on server
  2147486090 mod 3 = 2.  (Reduced to 32 bits the product is negative and
  its remainder is -2, an index in front of the range vector.) *)
Theorem C3_key_215330_overflows_int :
  exists fuel g0 g1 trace ctx,
    Init example_platform (Some "1024"%string) example_topology
      (initial_state example_platform) = Ok g0 /\
    IsTensorInitialized_traced example_platform fuel "embedding" 900000000
      (-1) BYTEPS_FLOAT32 g0 = Ok (false, g1, trace) /\
    _name_to_cxt g1 !! "embedding"%string = Some ctx /\
    215330 ∈ key_list ctx /\
    215330 * 9973 = 2147486090 /\
    in_int_range (215330 * 9973) = false /\
    (215330 * 9973) mod 3 = 2 /\
    Z.rem (to_int (215330 * 9973)) 3 = -2 /\
    EncodeDefaultKey three_servers 215330 4096 g1 = Undefined.
Proof.
  remember (Z.to_nat 219727) as n eqn:En.
  assert (Hn : Z.of_nat n = 219727) by (subst n; by apply Z2Nat.id).
  clear En.
  remember (Z.to_nat 215330) as i eqn:Ei.
  assert (Hi : Z.of_nat i = 215330) by (subst i; by apply Z2Nat.id).
  clear Ei.
  set (g0 := mkGlobal true false 0 0 1 1 1024 ∅
               (replicate 4 (Some ScheduledQueue.new_queue)) ∅ 0).
  destruct (registration_small example_platform n "embedding" 900000000 (-1)
              BYTEPS_FLOAT32 g0 n eq_refl ltac:(cbn; lia))
    as (g1 & trace & ctx & Hrun & Hkeys & _ & _ & _ & _ & _ & Hctx & Hkl & _);
    [ by vm_compute | unfold INT_MAX; lia
    | change ((Z.of_nat n - 1) * 4096 < 900000000 <= Z.of_nat n * 4096); lia
    | lia | by left | ].
  change (next_key_ g0) with 0 in Hkeys.
  exists n, g0, g1, trace, ctx.
  split; [vm_compute; reflexivity|]. split; [exact Hrun|].
  split; [exact Hctx|].
  split.
  { rewrite Hkl, Hkeys. apply list_elem_of_lookup. exists i.
    rewrite iota_keys_lookup by lia. rewrite Hi. reflexivity. }
  split; [reflexivity|]. split; [reflexivity|]. split; [reflexivity|].
  split; [reflexivity|].
  unfold EncodeDefaultKey.
  rewrite (registration_ps_kv _ _ _ _ _ _ _ _ _ _ Hrun). reflexivity.
Qed.

(** ** Termination of the partitioning loop, for every size

  Past [INT_MAX] the accumulator wraps, but it cannot cycle: it climbs
  through the non-negative [int]s, falls to a negative value at most once,
  and climbs again from there.  [loop_measure] bounds the iterations
  left. *)

Lemma to_int_high z : 2 ^ 31 <= z < 2 ^ 32 -> to_int z = z - 2 ^ 32.
Proof.
  intros H. unfold to_int. rewrite Z.mod_small by lia.
  destruct (Z.ltb_spec z (2 ^ 31)); lia.
Qed.

Lemma to_int_negative a : - 2 ^ 31 <= a < 0 -> to_int (a + 2 ^ 64) = a.
Proof.
  intros H. unfold to_int.
  assert (Hmod : (a + 2 ^ 64) mod 2 ^ 32 = a + 2 ^ 32).
  { symmetry. apply (Z.mod_unique _ _ (2 ^ 32 - 1)); lia. }
  rewrite Hmod. destruct (Z.ltb_spec (a + 2 ^ 32) (2 ^ 31)); lia.
Qed.

Lemma wrap64_negative a : - 2 ^ 31 <= a < 0 -> wrap64 a = a + 2 ^ 64.
Proof.
  intros H. unfold wrap64. symmetry.
  apply (Z.mod_unique _ _ (-1)); lia.
Qed.

Lemma partition_loop_terminates_from name size B :
  0 < size < 2 ^ 64 -> 0 < B < 2 ^ 32 ->
  forall (fuel : nat) accumulated g trace,
  _partition_bound g = B ->
  INT_MIN <= accumulated <= INT_MAX ->
  (0 <= accumulated -> accumulated < size -> accumulated + B < 2 ^ 32) ->
  (if 0 <=? accumulated then 2 ^ 32 - accumulated else - accumulated)
    <= Z.of_nat fuel ->
  partition_loop fuel name size accumulated g trace <> None.
Proof.
  intros Hsize HB. unfold INT_MIN, INT_MAX.
  induction fuel as [|fuel IH]; intros acc g tr Hb Hrange Hinv Hfuel;
    rewrite partition_loop_eq;
    destruct (Z.ltb_spec (wrap64 acc) size) as [Hcond|Hcond];
    try discriminate.
  - destruct (Z.leb_spec 0 acc); lia.
  - rewrite Hb. set (len := chunk_len size acc B).
    destruct (Z.leb_spec 0 acc) as [Hpos|Hneg].
    + (* the accumulator is still a plain count *)
      rewrite (wrap64_small acc) in Hcond by lia.
      assert (Hlen : len = Z.min B (size - acc)).
      { subst len. unfold chunk_len. rewrite (wrap64_small acc) by lia.
        rewrite wrap64_small by lia.
        destruct (Z.gtb_spec (size - acc) B); lia. }
      assert (Hsum : advance acc len = to_int (acc + len)).
      { unfold advance. rewrite (wrap64_small acc) by lia.
        rewrite wrap64_small by lia. reflexivity. }
      rewrite Hsum. specialize (Hinv Hpos Hcond).
      destruct (Z.le_gt_cases (acc + len) 2147483647) as [Hfit|Hover].
      * rewrite to_int_small by (unfold INT_MAX; lia).
        apply IH; [exact Hb | lia | lia |].
        destruct (Z.leb_spec 0 (acc + len)); lia.
      * rewrite to_int_high by lia.
        apply IH; [exact Hb | lia | lia |].
        destruct (Z.leb_spec 0 (acc + len - 2 ^ 32)); lia.
    + (* the accumulator has wrapped to a negative value *)
      rewrite (wrap64_negative acc) in Hcond by lia.
      assert (Hlen : len = Z.min B (size - (acc + 2 ^ 64))).
      { subst len. unfold chunk_len. rewrite (wrap64_negative acc) by lia.
        rewrite wrap64_small by lia.
        destruct (Z.gtb_spec (size - (acc + 2 ^ 64)) B); lia. }
      assert (Hsum : advance acc len = acc + len).
      { unfold advance. rewrite (wrap64_negative acc) by lia.
        rewrite wrap64_small by lia.
        replace (acc + 2 ^ 64 + len) with (acc + len + 2 ^ 64) by lia.
        apply to_int_negative. lia. }
      rewrite Hsum.
      apply IH; [exact Hb | lia | lia |].
      destruct (Z.leb_spec 0 (acc + len)); lia.
Qed.

(** For every size a [size_t] can hold, the loop started by
  [IsTensorInitialized] terminates exactly when the bound in bytes is
  positive. *)
Lemma partition_loop_terminates_iff name size g :
  0 < size < 2 ^ 64 -> 0 <= _partition_bound g < 2 ^ 32 ->
  (exists fuel, partition_loop fuel name size 0 g [] <> None)
  <-> 0 < _partition_bound g.
Proof.
  intros Hsize Hb. split.
  - intros [fuel Hrun].
    destruct (Z.eq_dec (_partition_bound g) 0) as [Hz|]; [|lia].
    contradict Hrun. by apply partition_loop_zero_bound.
  - intros Hpos. exists (Z.to_nat (2 ^ 32)).
    apply (partition_loop_terminates_from name size (_partition_bound g));
      [exact Hsize | lia | reflexivity | unfold INT_MIN, INT_MAX; lia | lia |].
    change (0 <=? 0) with true. cbv iota. rewrite Z2Nat.id by lia. lia.
Qed.

(** ** A bound of zero bytes *)

(** A first registration under a zero byte bound never returns, whatever
  the budget. *)
Lemma zero_bound_registration_diverges P fuel name size device dtype g :
  _name_to_cxt g !! name = None ->
  0 < size < 2 ^ 64 ->
  (if next_key_ g =? 0
   then ConvertBoundToBytes dtype (_partition_bound g)
   else _partition_bound g) = 0 ->
  device = CPU_DEVICE_ID P \/ is_Some (cudaHostAlloc P size) ->
  IsTensorInitialized P fuel name size device dtype g = OutOfFuel.
Proof.
  intros Hfresh Hsize Hzero Hdev.
  unfold IsTensorInitialized, IsTensorInitialized_traced.
  destruct (Z.ltb_spec 0 size); [|lia]. rewrite Hfresh.
  set (g1 := if next_key_ g =? 0 then _ else g).
  assert (Hg1 : _partition_bound g1 = 0 /\ _name_to_cxt g1 = _name_to_cxt g)
    by (subst g1; destruct (next_key_ g =? 0); by split).
  destruct Hg1 as [Hb1 Hm1].
  destruct (alloc_staging_ok P name size device g1 Hdev) as (g2 & Halloc & _);
    [by rewrite Hm1|].
  rewrite Halloc. outcome_simpl.
  apply alloc_staging_inv in Halloc as (_ & Hb2 & _).
  rewrite partition_loop_zero_bound; [reflexivity|exact Hsize|].
  by rewrite Hb2.
Qed.

(** With BYTEPS_PARTITION_BOUND=abc the bound is 0 and the first
  registration loops for ever. *)
Lemma invalid_override_registration_never_returns fuel :
  exists g0,
    Init example_platform (Some "abc"%string) example_topology
      (initial_state example_platform) = Ok g0 /\
    IsTensorInitialized example_platform fuel "grad0" 1000000 (-1)
      BYTEPS_FLOAT32 g0 = OutOfFuel.
Proof.
  eexists. split; [vm_compute; reflexivity|].
  apply zero_bound_registration_diverges;
    [reflexivity | lia | reflexivity | by left].
Qed.

(** A positive element bound can still turn into zero bytes: 2^30 elements
  of four bytes are 2^32 bytes, which a [uint32_t] holds as 0. *)
Lemma ConvertBoundToBytes_can_wrap_to_zero :
  ConvertBoundToBytes BYTEPS_FLOAT32 1073741824 = 0.
Proof. reflexivity. Qed.

(** * Further properties of global.cc *)

(** ** The queue, from any starting content *)

Section QueueOrder.
Import ScheduledQueue.
Context {A : Type}.

(** X1: entries that are already queued are served before the ones added
  later: on a queue holding [old], the calls [addTask] for [es] followed by
  [J] calls of [getTask], [J] not above the number of entries, return the
  first [J] entries of [old ++ es] and leave the rest queued in that
  order; the finished counter is not touched. *)
Theorem X1_older_entries_are_served_first (old es : list A) (fin : Z) (J : nat) :
  (J <= length old + length es)%nat ->
  getTasks J (addTasks es (mkQueue old fin))
  = Ok (take J (old ++ es), mkQueue (drop J (old ++ es)) fin).
Proof.
  intros HJ. rewrite addTasks_sq. cbn [_sq _finished].
  apply getTasks_take. rewrite length_app. exact HJ.
Qed.

(** X2: one [getTask] too many is one call on an empty queue: when [J]
  exceeds the number of entries the queue holds after the adds, the
  sequence of [J] calls has no defined result. *)
Theorem X2_draining_past_the_end_is_undefined (old es : list A) (fin : Z) (J : nat) :
  (length old + length es < J)%nat ->
  getTasks J (addTasks es (mkQueue old fin)) = Undefined.
Proof.
  intros HJ. rewrite addTasks_sq. cbn [_sq _finished].
  apply getTasks_too_many. rewrite length_app. exact HJ.
Qed.

End QueueOrder.

Lemma X1_older_entries_are_served_first_witness :
  (3 <= length [1; 2] + length [3; 4])%nat /\
  ScheduledQueue.getTasks 3
    (ScheduledQueue.addTasks [3; 4] (ScheduledQueue.mkQueue [1; 2] 5))
  = Ok ([1; 2; 3], ScheduledQueue.mkQueue [4] 5).
Proof.
  split; [simpl; lia|].
  apply (X1_older_entries_are_served_first [1; 2] [3; 4] 5 3). simpl; lia.
Defined.

Lemma X2_draining_past_the_end_is_undefined_witness :
  (length [1] + length [2] < 3)%nat /\
  ScheduledQueue.getTasks 3
    (ScheduledQueue.addTasks [2] (ScheduledQueue.mkQueue [1] 0))
  = Undefined.
Proof.
  split; [simpl; lia|].
  apply (X2_draining_past_the_end_is_undefined [1] [2] 0 3). simpl; lia.
Defined.

(** ** Lifecycle *)

Section LifecycleFacts.
Variable P : Platform.

Lemma set_queues_twice qs1 qs2 g :
  set_queues qs2 (set_queues qs1 g) = set_queues qs2 g.
Proof. by destruct g. Qed.

(** Filling the table from slot [length done] on: whenever the loop
  returns, the slots that were null hold fresh queues and the ones before
  are as they were. *)
Lemma create_queues_fills (m : nat) :
  forall (done : list (option Queue)) g g',
  create_queues P (seq (length done) m)
    (set_queues (done ++ replicate m None) g) = Ok g' ->
  g' = set_queues (done ++ replicate m (Some ScheduledQueue.new_queue)) g.
Proof.
  induction m as [|m IH]; intros done g g' H.
  - by injection H as <-.
  - cbn [seq create_queues replicate] in H. unfold CreateScheduledQueue in H.
    cbn [set_queues _queues] in H.
    rewrite list_lookup_middle in H by reflexivity.
    destruct (missing_return_is_benign P); outcome_simpl; [|discriminate].
    rewrite set_queues_twice in H.
    rewrite (insert_app_r_alt done) in H by lia.
    rewrite Nat.sub_diag in H. cbn [insert list_insert] in H.
    specialize (IH (done ++ [Some ScheduledQueue.new_queue]) g g').
    rewrite length_app, Nat.add_1_r in IH. cbn [length] in IH.
    rewrite <- !app_assoc in IH. exact (IH H).
Qed.

Lemma Init_result (getenv_bound : option string) (comm : Topology) g g' :
  Init P getenv_bound comm g = Ok g' -> _initialized g' = true.
Proof.
  unfold Init. destruct (_initialized g) eqn:Hi; [by intros [= <-]|].
  destruct getenv_bound as [text|]; [destruct (Libc.atoi text)|];
    outcome_simpl; try discriminate;
    (destruct (create_queues _ _ _); outcome_simpl; try discriminate;
     by intros [= <-]).
Qed.

(** X3: Init takes effect once.  Whatever a later call is given as
  override and as communicator answer, it returns the state the first
  successful call left, unchanged. *)
Theorem X3_Init_takes_effect_once env1 comm1 env2 comm2 g g1 :
  Init P env1 comm1 g = Ok g1 ->
  Init P env2 comm2 g1 = Ok g1.
Proof. intros H. apply Init_again. exact (Init_result _ _ _ _ H). Qed.

(** X4: before Init, [CheckInit] answers the precondition error and every
  slot of the queue table is null.  Whenever the first Init of a process
  returns, [CheckInit] is OK, the topology is the communicator's, every
  queue type below [QueueNum] has a fresh empty queue, an index from
  [QueueNum] on is outside the table, and no tensor and no key exist yet.
  Whether Init returns is not part of the statement. *)
Theorem X4_Init_sets_up_every_queue (getenv_bound : option string)
  (comm : Topology) (g' : BytePSGlobal) :
  CheckInit (initial_state P) = PreconditionError /\
  (forall i, (i < QueueNum P)%nat ->
     GetScheduledQueue i (initial_state P) = Ok None) /\
  (Init P getenv_bound comm (initial_state P) = Ok g' ->
   CheckInit g' = Status_OK /\
   (_rank g', _size g', _local_rank g', _local_size g')
     = (topo_rank comm, topo_size comm, topo_local_rank comm,
        topo_local_size comm) /\
   (forall i, (i < QueueNum P)%nat ->
      GetScheduledQueue i g' = Ok (Some ScheduledQueue.new_queue)) /\
   (forall i, (QueueNum P <= i)%nat -> GetScheduledQueue i g' = Undefined) /\
   _name_to_cxt g' = ∅ /\ ps_kv_ g' = ∅ /\ next_key_ g' = 0).
Proof.
  split; [reflexivity|]. split.
  { intros i Hi. unfold GetScheduledQueue. cbn [initial_state _queues].
    by rewrite lookup_replicate_2. }
  unfold Init. cbn [initial_state _initialized].
  set (g1 := set_topology comm _).
  assert (Hfill : forall g2 g3, _queues g2 = replicate (QueueNum P) None ->
            create_queues P (seq 0 (QueueNum P)) g2 = Ok g3 ->
            g3 = set_queues
                   (replicate (QueueNum P) (Some ScheduledQueue.new_queue)) g2).
  { intros g2 g3 Hq H.
    apply (create_queues_fills (QueueNum P) [] g2 g3).
    cbn [length app]. rewrite <- Hq.
    replace (set_queues (_queues g2) g2) with g2 by (by destruct g2).
    exact H. }
  assert (Hdone : forall b,
            let g' := set_initialized true
                        (set_queues
                           (replicate (QueueNum P)
                              (Some ScheduledQueue.new_queue))
                           (set_partition_bound b g1)) in
            CheckInit g' = Status_OK /\
            (_rank g', _size g', _local_rank g', _local_size g')
              = (topo_rank comm, topo_size comm, topo_local_rank comm,
                 topo_local_size comm) /\
            (forall i, (i < QueueNum P)%nat ->
               GetScheduledQueue i g' = Ok (Some ScheduledQueue.new_queue)) /\
            (forall i, (QueueNum P <= i)%nat ->
               GetScheduledQueue i g' = Undefined) /\
            _name_to_cxt g' = ∅ /\ ps_kv_ g' = ∅ /\ next_key_ g' = 0).
  { intros b g0. subst g0. split; [reflexivity|]. split; [reflexivity|].
    split; [|split; [|by repeat split]].
    - intros i Hi. unfold GetScheduledQueue.
      cbn [set_initialized set_queues _queues]. by rewrite lookup_replicate_2.
    - intros i Hi. unfold GetScheduledQueue.
      cbn [set_initialized set_queues _queues].
      rewrite lookup_ge_None_2; [reflexivity|]. by rewrite length_replicate. }
  destruct getenv_bound as [text|];
    [destruct (Libc.atoi text) as [v|]|]; outcome_simpl; try discriminate.
  - destruct (create_queues _ _ _) as [g3| | |] eqn:Hq;
      outcome_simpl; try discriminate.
    intros [= <-]. apply Hfill in Hq as ->; [|reflexivity]. apply Hdone.
  - destruct (create_queues _ _ _) as [g3| | |] eqn:Hq;
      outcome_simpl; try discriminate.
    intros [= <-]. apply Hfill in Hq as ->; [|reflexivity].
    replace g1 with (set_partition_bound 512000 g1) by reflexivity.
    apply Hdone.
Qed.

(** X5: the body of [CreateScheduledQueue] fills a slot only when it is
  null.  The function has no [return] statement, so the language promises
  of no call that it comes back.  A call that does come back was made on a
  build that lets it, with an index inside the table; it left every other
  slot as it was, kept a queue that already existed together with its
  pending entries, and put a fresh queue where there was none; a further
  call for the same type, if it comes back, changes nothing.  For an index
  outside the table the call has no defined behaviour on any build. *)
Theorem X5_CreateScheduledQueue_only_fills_null_slots (i : nat) g g1 :
  CreateScheduledQueue P i g = Ok g1 ->
  missing_return_is_benign P = true /\
  (i < length (_queues g))%nat /\
  (forall q, _queues g !! i = Some (Some q) -> g1 = g) /\
  (_queues g !! i = Some None ->
   _queues g1 !! i = Some (Some ScheduledQueue.new_queue)) /\
  (forall j, j <> i -> _queues g1 !! j = _queues g !! j) /\
  (forall g2, CreateScheduledQueue P i g1 = Ok g2 -> g2 = g1) /\
  (forall k, (length (_queues g) <= k)%nat ->
     CreateScheduledQueue P k g = Undefined).
Proof.
  unfold CreateScheduledQueue at 1. intros H.
  assert (Hout : forall k, (length (_queues g) <= k)%nat ->
                   CreateScheduledQueue P k g = Undefined).
  { intros k Hk. unfold CreateScheduledQueue.
    by rewrite lookup_ge_None_2. }
  destruct (missing_return_is_benign P) eqn:Hb;
    destruct (_queues g !! i) as [[q|]|] eqn:Hslot;
    outcome_simpl; try discriminate; injection H as <-.
  - split; [reflexivity|]. split; [by eapply lookup_lt_Some|].
    split; [done|]. split; [done|]. split; [done|].
    split; [|exact Hout]. intros g2. unfold CreateScheduledQueue.
    rewrite Hslot, Hb. outcome_simpl. by intros [= <-].
  - assert (Hi : (i < length (_queues g))%nat)
      by (eapply lookup_lt_Some; exact Hslot).
    split; [reflexivity|]. split; [exact Hi|]. split; [done|].
    split; [intros _; cbn [set_queues _queues];
            by apply list_lookup_insert_eq|].
    split; [intros j Hj; cbn [set_queues _queues];
            by apply list_lookup_insert_ne|].
    split; [|exact Hout].
    intros g2. unfold CreateScheduledQueue. cbn [set_queues _queues].
    rewrite list_lookup_insert_eq by exact Hi. rewrite Hb. outcome_simpl.
    by intros [= <-].
Qed.

End LifecycleFacts.

Lemma X3_Init_takes_effect_once_witness :
  exists g1,
    Init example_platform (Some "4096"%string) example_topology
      (initial_state example_platform) = Ok g1 /\
    Init example_platform (Some "1"%string) (mkTopology 3 8 1 4) g1 = Ok g1 /\
    _partition_bound g1 = 4096.
Proof.
  eexists. split; [vm_compute; reflexivity|]. split.
  - apply (X3_Init_takes_effect_once example_platform (Some "4096"%string)
             example_topology (Some "1"%string) (mkTopology 3 8 1 4)
             (initial_state example_platform)).
    vm_compute; reflexivity.
  - reflexivity.
Defined.

Lemma X4_Init_sets_up_every_queue_witness :
  exists g',
    Init example_platform (Some "4096"%string) example_topology
      (initial_state example_platform) = Ok g' /\
    CheckInit g' = Status_OK /\
    GetScheduledQueue 3 g' = Ok (Some ScheduledQueue.new_queue) /\
    GetScheduledQueue 4 g' = Undefined.
Proof.
  eexists. split; [vm_compute; reflexivity|].
  match goal with
  | |- CheckInit ?g = _ /\ _ =>
      destruct (X4_Init_sets_up_every_queue example_platform
                  (Some "4096"%string) example_topology g)
        as (_ & _ & Hafter)
  end.
  destruct Hafter as (Hcheck & _ & Hqueues & Hout & _);
    [vm_compute; reflexivity|].
  split; [exact Hcheck|].
  split; [apply Hqueues; simpl; lia|apply Hout; simpl; lia].
Defined.

Lemma X5_CreateScheduledQueue_only_fills_null_slots_witness :
  exists g1,
    CreateScheduledQueue example_platform 2 (initial_state example_platform)
      = Ok g1 /\
    _queues g1 !! 2%nat = Some (Some ScheduledQueue.new_queue) /\
    _queues g1 !! 1%nat = Some None /\
    CreateScheduledQueue example_platform 2 g1 = Ok g1.
Proof.
  eexists. split; [vm_compute; reflexivity|].
  destruct (X5_CreateScheduledQueue_only_fills_null_slots example_platform 2
              (initial_state example_platform) _ eq_refl)
    as (_ & _ & _ & Hnew & Hother & _).
  split; [apply Hnew; reflexivity|].
  split; [rewrite Hother by lia; reflexivity|reflexivity].
Defined.

Lemma atoi_negative_decimal (p : positive) :
  Z.pos p <= 2147483648 ->
  Libc.atoi (String "-" (decimal p)) = Some (- Z.pos p).
Proof.
  intros Hp. unfold Libc.atoi, Libc.strtol10, decimal.
  change (Libc.skip_spaces (String "-" ?s)) with (String "-" s).
  cbv iota. rewrite digits_value_of_uint, Unsigned.of_to. cbn [Z.of_N].
  unfold in_int_range, INT_MIN, INT_MAX.
  destruct (Z.leb_spec (-2147483648) (- Z.pos p)); [|lia].
  destruct (Z.leb_spec (- Z.pos p) 2147483647); [reflexivity|lia].
Qed.

(** X6: a negative override is not refused.  [atoi] returns the negative
  [int], the assignment to the [uint32_t] bound reduces it modulo 2^32, and
  whenever the first Init returns, the element bound it leaves is 2^32
  minus the magnitude written in the variable. *)
Theorem X6_negative_override_becomes_a_huge_bound (P : Platform)
  (comm : Topology) (p : positive) (g' : BytePSGlobal) :
  Z.pos p <= 2147483648 ->
  Init P (Some (String "-" (decimal p))) comm (initial_state P) = Ok g' ->
  _partition_bound g' = 4294967296 - Z.pos p.
Proof.
  intros Hp H. apply Init_first_bound in H as (v & Hv & ->); [|reflexivity].
  rewrite (atoi_negative_decimal p Hp) in Hv. injection Hv as <-.
  unfold wrap32. symmetry. apply (Z.mod_unique _ _ (-1)); lia.
Qed.

Lemma X6_negative_override_becomes_a_huge_bound_witness :
  exists g',
    Z.pos 1 <= 2147483648 /\
    Init example_platform (Some "-1"%string) example_topology
      (initial_state example_platform) = Ok g' /\
    _partition_bound g' = 4294967295.
Proof.
  eexists. split; [lia|]. split; [vm_compute; reflexivity|].
  match goal with
  | |- _partition_bound ?g = _ =>
      apply (X6_negative_override_becomes_a_huge_bound example_platform
               example_topology 1%positive g)
  end; [lia|vm_compute; reflexivity].
Defined.

(** ** What a first registration writes *)

Lemma push_keys_insert name k ks m :
  push_keys name (k :: ks) m
  = <[name := mkContext (key_list (context_at name m) ++ k :: ks)
               (cpubuff (context_at name m)) (buff_len (context_at name m))]> m.
Proof.
  apply map_eq. intros other. destruct (decide (name = other)) as [<-|Hne].
  - by rewrite lookup_insert_eq, push_keys_lookup.
  - by rewrite lookup_insert_ne, push_keys_lookup_ne.
Qed.

Lemma same_outside_registry_updates g m k b :
  same_outside_registry g
    (set_next_key k (set_name_to_cxt m (set_partition_bound b g))).
Proof. by repeat split. Qed.

Section RegistrationEffect.
Variable P : Platform.

Lemma registration_effect fuel name size device dtype g g' trace :
  0 <= next_key_ g < 2 ^ 32 ->
  _name_to_cxt g !! name = None ->
  IsTensorInitialized_traced P fuel name size device dtype g
    = Ok (false, g', trace) ->
  trace <> [] /\
  trace.*1 = iota_keys (next_key_ g) (length trace) /\
  g' = set_next_key (wrap32 (next_key_ g + Z.of_nat (length trace)))
         (set_name_to_cxt
            (<[name := mkContext trace.*1 (staging_of P size device).1
                         (staging_of P size device).2]> (_name_to_cxt g))
            (set_partition_bound (bound_in_effect dtype g) g)) /\
  (device <> CPU_DEVICE_ID P -> is_Some (cudaHostAlloc P size)).
Proof.
  intros Hk Hfresh H. unfold IsTensorInitialized_traced in H.
  destruct (Z.ltb_spec 0 size) as [Hsize|]; [|discriminate].
  rewrite Hfresh in H.
  set (g1 := if next_key_ g =? 0 then _ else g) in H.
  assert (Hg1 : g1 = set_partition_bound (bound_in_effect dtype g) g).
  { subst g1. unfold bound_in_effect. destruct (next_key_ g =? 0);
      [reflexivity|by destruct g]. }
  rewrite Hg1 in H. clear g1 Hg1.
  set (g1 := set_partition_bound _ g) in *.
  unfold alloc_staging, staging_of in *.
  destruct (Z.eqb_spec device (CPU_DEVICE_ID P)) as [Hcpu|Hgpu].
  - outcome_simpl.
    destruct (partition_loop fuel name size 0 g1 []) as [[[acc g3] tr]|] eqn:Hrun;
      [|discriminate].
    injection H as <- <-.
    apply partition_loop_state in Hrun as (new & -> & Hkeys & -> & Hsome & _);
      [|exact Hk].
    cbn [app] in *. change (next_key_ g1) with (next_key_ g) in *.
    assert (Hne : new <> [])
      by (apply Hsome; change (wrap64 0) with 0; by apply Z.ltb_lt).
    split; [exact Hne|]. split; [exact Hkeys|]. split; [|done].
    destruct new as [|[k0 c0] new0]; [done|].
    change (((k0, c0) :: new0).*1) with (k0 :: new0.*1).
    rewrite push_keys_insert. cbn [set_partition_bound _name_to_cxt g1].
    unfold context_at. rewrite Hfresh. reflexivity.
  - destruct (cudaHostAlloc P size) as [p|] eqn:Halloc;
      outcome_simpl; [|discriminate].
    set (g2 := set_name_to_cxt _ g1) in H.
    destruct (partition_loop fuel name size 0 g2 []) as [[[acc g3] tr]|] eqn:Hrun;
      [|discriminate].
    injection H as <- <-.
    apply partition_loop_state in Hrun as (new & -> & Hkeys & -> & Hsome & _);
      [|exact Hk].
    cbn [app] in *. change (next_key_ g2) with (next_key_ g) in *.
    assert (Hne : new <> [])
      by (apply Hsome; change (wrap64 0) with 0; by apply Z.ltb_lt).
    split; [exact Hne|]. split; [exact Hkeys|]. split; [|eauto].
    destruct new as [|[k0 c0] new0]; [done|].
    change (((k0, c0) :: new0).*1) with (k0 :: new0.*1).
    rewrite push_keys_insert. subst g2.
    cbn [set_name_to_cxt set_partition_bound _name_to_cxt g1 fst snd].
    unfold context_at. rewrite lookup_insert_eq, Hfresh.
    cbn [default from_option id key_list cpubuff buff_len app].
    rewrite insert_insert_eq. by destruct g.
Qed.

End RegistrationEffect.

Lemma partition_loop_frame fuel name size :
  forall accumulated g trace acc' g' trace',
  partition_loop fuel name size accumulated g trace = Some (acc', g', trace') ->
  same_outside_registry g g' /\
  _partition_bound g' = _partition_bound g /\
  (forall other, name <> other ->
     _name_to_cxt g' !! other = _name_to_cxt g !! other).
Proof.
  induction fuel as [|fuel IH]; intros acc g tr acc' g' tr' Hrun;
    rewrite partition_loop_eq in Hrun;
    destruct (wrap64 acc <? size); try discriminate.
  - injection Hrun as <- <- <-. by repeat split.
  - apply IH in Hrun as (Hsame & Hb & Hm).
    split; [exact Hsame|]. split; [exact Hb|].
    intros other Hne. rewrite Hm by exact Hne.
    cbn [set_next_key set_name_to_cxt _name_to_cxt].
    by apply push_key_lookup_ne.
  - injection Hrun as <- <- <-. by repeat split.
Qed.

Section RegistrationExtras.
Variable P : Platform.

(** The two ways a call can return. *)
Lemma traced_cases fuel name size device dtype g b g' trace :
  IsTensorInitialized_traced P fuel name size device dtype g
    = Ok (b, g', trace) ->
  (b = true /\ g' = g /\ trace = [] /\ is_Some (_name_to_cxt g !! name)) \/
  (b = false /\ _name_to_cxt g !! name = None).
Proof.
  unfold IsTensorInitialized_traced. intros H.
  destruct (0 <? size); [|discriminate].
  destruct (_name_to_cxt g !! name) as [ctx|] eqn:Hctx.
  - injection H as <- <- <-. left. eauto.
  - right. split; [|reflexivity].
    destruct (alloc_staging _ _ _ _ _); outcome_simpl; try discriminate.
    destruct (partition_loop _ _ _ _ _ _) as [[[? ?] ?]|]; [|discriminate].
    by injection H as <- _ _.
Qed.

(** A first registration is the loop run on a state that carries the bound
  in effect. *)
Lemma first_registration_runs_loop fuel name size device dtype g :
  _name_to_cxt g !! name = None -> 0 < size ->
  device = CPU_DEVICE_ID P \/ is_Some (cudaHostAlloc P size) ->
  exists g2,
    _partition_bound g2 = bound_in_effect dtype g /\
    IsTensorInitialized P fuel name size device dtype g =
      match partition_loop fuel name size 0 g2 [] with
      | Some (_, g3, _) => Ok (false, g3)
      | None => OutOfFuel
      end.
Proof.
  intros Hfresh Hsize Hdev.
  unfold IsTensorInitialized, IsTensorInitialized_traced.
  destruct (Z.ltb_spec 0 size); [|lia]. rewrite Hfresh.
  set (g1 := if next_key_ g =? 0 then _ else g).
  assert (Hg1 : _partition_bound g1 = bound_in_effect dtype g /\
                _name_to_cxt g1 = _name_to_cxt g)
    by (subst g1; unfold bound_in_effect; destruct (next_key_ g =? 0); by split).
  destruct Hg1 as [Hb1 Hm1].
  destruct (alloc_staging_ok P name size device g1 Hdev) as (g2 & Halloc & _);
    [by rewrite Hm1|].
  rewrite Halloc. outcome_simpl.
  apply alloc_staging_inv in Halloc as (_ & Hb2 & _).
  exists g2. split; [by rewrite Hb2|].
  by destruct (partition_loop fuel name size 0 g2 []) as [[[? ?] ?]|].
Qed.

(** X7: a first registration of a tensor of at most [INT_MAX] bytes, on the
  CPU or with a staging buffer that can be allocated, under a positive byte
  bound [B], returns [false] once the budget covers ceil(size / B)
  iterations; the key list of the tensor then has exactly ceil(size / B)
  keys, and the chunks the loop consumed are positive, at most [B], and add
  up to [size]. *)
Theorem X7_tensor_within_int_range_is_covered fuel name size device dtype g :
  _name_to_cxt g !! name = None ->
  0 <= next_key_ g < 2 ^ 32 ->
  0 < bound_in_effect dtype g ->
  0 < size <= INT_MAX ->
  device = CPU_DEVICE_ID P \/ is_Some (cudaHostAlloc P size) ->
  (Z.to_nat (ceil_div size (bound_in_effect dtype g)) <= fuel)%nat ->
  exists g' trace ctx,
    IsTensorInitialized_traced P fuel name size device dtype g
      = Ok (false, g', trace) /\
    _name_to_cxt g' !! name = Some ctx /\
    key_list ctx = trace.*1 /\
    Z.of_nat (length (key_list ctx)) = ceil_div size (bound_in_effect dtype g) /\
    total trace.*2 = size /\
    Forall (fun c => 0 < c <= bound_in_effect dtype g) trace.*2.
Proof.
  intros Hfresh Hk HB Hsize Hdev Hfuel.
  exact (small_tensor_is_covered P name size device dtype g
           Hfresh Hk HB Hsize Hdev fuel Hfuel).
Qed.

(** X8: for every size a [size_t] can hold, the first registration of a
  tensor (on the CPU, or with a staging buffer that can be allocated)
  returns for some budget of iterations exactly when the byte bound in
  effect is positive; with a bound of zero bytes it never returns. *)
Theorem X8_first_registration_returns_iff_bound_positive
  name size device dtype g :
  _name_to_cxt g !! name = None ->
  0 < size < 2 ^ 64 ->
  0 <= bound_in_effect dtype g < 2 ^ 32 ->
  device = CPU_DEVICE_ID P \/ is_Some (cudaHostAlloc P size) ->
  (exists fuel g',
     IsTensorInitialized P fuel name size device dtype g = Ok (false, g'))
  <-> 0 < bound_in_effect dtype g.
Proof.
  intros Hfresh Hsize Hb Hdev. split.
  - intros (fuel & g' & Hrun).
    destruct (Z.eq_dec (bound_in_effect dtype g) 0) as [Hz|]; [|lia].
    rewrite zero_bound_registration_diverges in Hrun;
      [discriminate | exact Hfresh | exact Hsize | exact Hz | exact Hdev].
  - intros Hpos. exists (Z.to_nat (2 ^ 32)).
    destruct (first_registration_runs_loop (Z.to_nat (2 ^ 32)) name size
                device dtype g Hfresh (proj1 Hsize) Hdev) as (g2 & Hb2 & ->).
    pose proof (partition_loop_terminates_from name size
                  (bound_in_effect dtype g) Hsize ltac:(lia)
                  (Z.to_nat (2 ^ 32)) 0 g2 [] Hb2
                  ltac:(unfold INT_MIN, INT_MAX; lia) ltac:(lia)) as Hterm.
    destruct (partition_loop _ name size 0 g2 []) as [[[acc g3] tr]|];
      [eauto|].
    exfalso. apply Hterm; [|reflexivity].
    change (0 <=? 0) with true. cbv iota. rewrite Z2Nat.id by lia. lia.
Qed.

(** X9: a registration writes the registry entry of its own tensor, the key
  counter and the bound, and nothing else: the entries of all other
  tensors, the encoding table, the queues, the topology and the lifecycle
  flags are after the call what they were before. *)
Theorem X9_registration_touches_only_its_tensor
  fuel name size device dtype g b g' :
  IsTensorInitialized P fuel name size device dtype g = Ok (b, g') ->
  same_outside_registry g g' /\
  (forall other, name <> other ->
     _name_to_cxt g' !! other = _name_to_cxt g !! other).
Proof.
  intros H. apply traced_result in H as [trace H].
  unfold IsTensorInitialized_traced in H.
  destruct (0 <? size); [|discriminate].
  destruct (_name_to_cxt g !! name) as [ctx|].
  { injection H as <- <- <-. by repeat split. }
  set (g1 := if next_key_ g =? 0 then _ else g) in H.
  assert (Hg1 : same_outside_registry g g1 /\ _name_to_cxt g1 = _name_to_cxt g)
    by (subst g1; destruct (next_key_ g =? 0); by repeat split).
  destruct Hg1 as [Hs1 Hm1].
  assert (Hstep : forall g2 g3, same_outside_registry g1 g2 ->
            same_outside_registry g2 g3 -> same_outside_registry g g3).
  { unfold same_outside_registry. intros g2 g3 H2 H3.
    destruct Hs1 as (?&?&?&?&?&?&?&?), H2 as (?&?&?&?&?&?&?&?),
      H3 as (?&?&?&?&?&?&?&?). repeat split; congruence. }
  destruct (alloc_staging P name size device g1) as [g2| | |] eqn:Halloc;
    outcome_simpl; try discriminate.
  assert (Hs2 : same_outside_registry g1 g2).
  { unfold alloc_staging in Halloc.
    destruct (device =? CPU_DEVICE_ID P); [by injection Halloc as <-|].
    destruct (cudaHostAlloc P size); [|discriminate].
    injection Halloc as <-. by repeat split. }
  apply alloc_staging_inv in Halloc as (_ & _ & Hm2).
  destruct (partition_loop fuel name size 0 g2 []) as [[[acc g3] tr]|] eqn:Hrun;
    [|discriminate].
  injection H as <- <- <-.
  apply partition_loop_frame in Hrun as (Hs3 & _ & Hm3).
  split; [exact (Hstep g2 g3 Hs2 Hs3)|].
  intros other Hne. rewrite Hm3, Hm2 by exact Hne. by rewrite Hm1.
Qed.

End RegistrationExtras.

Section RegistryExtras.
Variable P : Platform.

(** A call made while the key counter is not 0 leaves the bound alone. *)
Lemma registration_keeps_bound fuel name size device dtype g b g' trace :
  next_key_ g <> 0 ->
  IsTensorInitialized_traced P fuel name size device dtype g
    = Ok (b, g', trace) ->
  _partition_bound g' = _partition_bound g.
Proof.
  intros Hk H.
  destruct (traced_cases P _ _ _ _ _ _ _ _ _ H)
    as [(_ & -> & _)|[-> Hfresh]]; [reflexivity|].
  unfold IsTensorInitialized_traced in H.
  destruct (0 <? size); [|discriminate]. rewrite Hfresh in H.
  destruct (Z.eqb_spec (next_key_ g) 0) as [|_]; [done|].
  destruct (alloc_staging P name size device g) as [g3| | |] eqn:Halloc;
    outcome_simpl; try discriminate.
  apply alloc_staging_inv in Halloc as (_ & Hb3 & _).
  destruct (partition_loop fuel name size 0 g3 []) as [[[acc g4] tr]|] eqn:Hrun;
    [|discriminate].
  injection H as <- _.
  apply partition_loop_frame in Hrun as (_ & Hb4 & _). congruence.
Qed.

(** So does a sequence of calls during which the counter, not 0 at the
  start, does not wrap. *)
Lemma register_all_keeps_bound fuel reqs :
  forall g g' issued,
  0 < next_key_ g ->
  register_all P fuel reqs g = Ok (g', issued) ->
  next_key_ g + Z.of_nat (length issued) < 2 ^ 32 ->
  _partition_bound g' = _partition_bound g.
Proof.
  induction reqs as [|r reqs IH]; intros g g' issued Hk H Hcount.
  - by injection H as <- _.
  - cbn [register_all] in H.
    destruct (IsTensorInitialized_traced P fuel (reg_name r) (reg_size r)
                (reg_device r) (reg_dtype r) g) as [[[b g1] tr]| | |] eqn:Hcall;
      outcome_simpl; try discriminate.
    destruct (register_all P fuel reqs g1) as [[g2 rest]| | |] eqn:Hrest;
      outcome_simpl; try discriminate.
    injection H as <- <-.
    rewrite length_app, length_fmap, Nat2Z.inj_add in Hcount.
    assert (Hrange : 0 <= next_key_ g < 2 ^ 32) by lia.
    destruct (traced_keys P _ _ _ _ _ _ _ _ _ Hrange Hcall) as [_ Hk1].
    rewrite wrap32_small in Hk1 by lia.
    apply registration_keeps_bound in Hcall as <-; [|lia].
    apply (IH g1 g2 rest); [lia|exact Hrest|lia].
Qed.

(** X10: the conversion of the element bound into bytes is guarded by the
  key counter alone (line 205).  A new tensor registered while the counter
  is 0, in whatever state that is, multiplies the bound by the width of its
  dtype; this is the case for the first registration of a process.  From
  then on every sequence of calls, whatever their names, sizes and dtypes,
  leaves the bound at that value, as long as the keys issued since the
  counter was 0 stay below 2^32 in number, so that the counter has not come
  back to 0. *)
Theorem X10_first_dtype_fixes_the_byte_bound
  fuel1 name1 size1 dev1 dt1 g g1 trace1 fuel reqs g2 issued :
  next_key_ g = 0 ->
  IsTensorInitialized_traced P fuel1 name1 size1 dev1 dt1 g
    = Ok (false, g1, trace1) ->
  register_all P fuel reqs g1 = Ok (g2, issued) ->
  Z.of_nat (length trace1) + Z.of_nat (length issued) < 2 ^ 32 ->
  _partition_bound g1 = ConvertBoundToBytes dt1 (_partition_bound g) /\
  _partition_bound g2 = ConvertBoundToBytes dt1 (_partition_bound g).
Proof.
  intros Hzero Hfirst Hlater Hcount.
  destruct (traced_cases P _ _ _ _ _ _ _ _ _ Hfirst) as [[? _]|[_ Hfresh]];
    [discriminate|].
  assert (Hk : 0 <= next_key_ g < 2 ^ 32) by lia.
  destruct (registration_effect P _ _ _ _ _ _ _ _ Hk Hfresh Hfirst)
    as (Hne & _ & Hg1 & _).
  assert (Hb1 : _partition_bound g1 = ConvertBoundToBytes dt1 (_partition_bound g)).
  { rewrite Hg1. cbn [set_next_key set_name_to_cxt set_partition_bound
                       _partition_bound].
    unfold bound_in_effect. by rewrite Hzero. }
  assert (Hk1 : next_key_ g1 = Z.of_nat (length trace1)).
  { rewrite Hg1. cbn [set_next_key next_key_]. rewrite Hzero.
    apply wrap32_small. lia. }
  assert (Hpos : 0 < Z.of_nat (length trace1))
    by (destruct trace1; [done|cbn [length]; lia]).
  split; [exact Hb1|]. rewrite <- Hb1.
  apply (register_all_keeps_bound fuel reqs g1 g2 issued); [lia|exact Hlater|lia].
Qed.

(** X11: what a first registration stores is what a lookup returns.  After
  the first registration of a tensor, [GetContextFromName] hands back a
  context whose key list is the keys issued in that registration, with no
  staging buffer and length 0 for a CPU tensor, and with the allocated
  buffer and the tensor's size otherwise; the lookup leaves the state
  unchanged; and the registry holds one entry more than before. *)
Theorem X11_lookup_returns_what_registration_stored
  fuel name size device dtype g g' trace :
  0 <= next_key_ g < 2 ^ 32 ->
  _name_to_cxt g !! name = None ->
  IsTensorInitialized_traced P fuel name size device dtype g
    = Ok (false, g', trace) ->
  GetContextFromName name g'
    = (mkContext trace.*1 (staging_of P size device).1
         (staging_of P size device).2, g') /\
  trace <> [] /\
  (device <> CPU_DEVICE_ID P ->
   exists p, cudaHostAlloc P size = Some p /\
             staging_of P size device = (Some p, size)) /\
  (device = CPU_DEVICE_ID P -> staging_of P size device = (None, 0)) /\
  stdpp.base.size (_name_to_cxt g') = S (stdpp.base.size (_name_to_cxt g)) /\
  GetTensorCount g' = wrap32 (GetTensorCount g + 1).
Proof.
  intros Hk Hfresh Hrun.
  destruct (registration_effect P _ _ _ _ _ _ _ _ Hk Hfresh Hrun)
    as (Hne & _ & Hg' & Halloc).
  set (ctx := mkContext _ _ _) in Hg'.
  assert (Hlookup : _name_to_cxt g' !! name = Some ctx)
    by (rewrite Hg'; cbn [set_next_key set_name_to_cxt _name_to_cxt];
        apply lookup_insert_eq).
  assert (Hsize : stdpp.base.size (_name_to_cxt g')
                  = S (stdpp.base.size (_name_to_cxt g)))
    by (rewrite Hg'; cbn [set_next_key set_name_to_cxt _name_to_cxt];
        by apply map_size_insert_None).
  split.
  { unfold GetContextFromName, context_at. rewrite Hlookup.
    cbn [default from_option id]. f_equal.
    rewrite insert_id by exact Hlookup. by destruct g'. }
  split; [exact Hne|].
  split.
  { intros Hgpu. destruct (Halloc Hgpu) as [p Hp]. exists p.
    split; [exact Hp|]. unfold staging_of.
    destruct (Z.eqb_spec device (CPU_DEVICE_ID P)); [done|]. by rewrite Hp. }
  split.
  { intros ->. unfold staging_of. by rewrite Z.eqb_refl. }
  split; [exact Hsize|].
  unfold GetTensorCount. rewrite Hsize, wrap32_add_l. f_equal. lia.
Qed.

(** X12: the keys of a tensor are one unbroken block of counter values.  As
  long as the counter does not pass 2^32 during the registration, the key
  list is [k, k+1, ..., k+n-1] for the counter value [k] at the call and
  the number [n >= 1] of chunks, and the counter ends at [k + n]; so the
  first and the last key, which the source logs as the key range, are [k]
  and [k+n-1]. *)
Theorem X12_keys_of_a_tensor_are_consecutive
  fuel name size device dtype g g' trace :
  0 <= next_key_ g < 2 ^ 32 ->
  _name_to_cxt g !! name = None ->
  IsTensorInitialized_traced P fuel name size device dtype g
    = Ok (false, g', trace) ->
  next_key_ g + Z.of_nat (length trace) <= 2 ^ 32 ->
  exists ctx,
    _name_to_cxt g' !! name = Some ctx /\
    key_list ctx
      = (fun i : nat => next_key_ g + Z.of_nat i) <$> seq 0 (length trace) /\
    (0 < length trace)%nat /\
    head (key_list ctx) = Some (next_key_ g) /\
    last (key_list ctx) = Some (next_key_ g + Z.of_nat (length trace) - 1) /\
    next_key_ g' = wrap32 (next_key_ g + Z.of_nat (length trace)).
Proof.
  intros Hk Hfresh Hrun Hwrap.
  destruct (registration_effect P _ _ _ _ _ _ _ _ Hk Hfresh Hrun)
    as (Hne & Hkeys & Hg' & _).
  assert (Hlist : trace.*1
            = (fun i : nat => next_key_ g + Z.of_nat i) <$> seq 0 (length trace)).
  { rewrite Hkeys. unfold iota_keys. apply list_eq. intros i.
    rewrite !list_lookup_fmap.
    destruct (seq 0 (length trace) !! i) as [j|] eqn:Hj; [|reflexivity].
    apply lookup_seq in Hj as [-> Hlt]. cbn [fmap option_fmap option_map].
    f_equal. apply wrap32_small. lia. }
  assert (Hpos : (0 < length trace)%nat)
    by (destruct trace; [done|cbn [length]; lia]).
  eexists. split.
  { rewrite Hg'. cbn [set_next_key set_name_to_cxt _name_to_cxt].
    apply lookup_insert_eq. }
  cbn [key_list]. split; [exact Hlist|]. split; [exact Hpos|].
  split; [|split; [|by rewrite Hg']].
  - rewrite Hlist. destruct (length trace); [lia|].
    cbn [seq fmap list_fmap head]. f_equal. lia.
  - rewrite Hlist, last_lookup, length_fmap, length_seq, list_lookup_fmap.
    rewrite lookup_seq_lt by lia. cbn [fmap option_fmap option_map].
    f_equal. lia.
Qed.

End RegistryExtras.

(** ** Keys in the registry and the counter *)

Lemma Init_keeps_registry P env comm g g' :
  Init P env comm g = Ok g' ->
  _name_to_cxt g' = _name_to_cxt g /\ next_key_ g' = next_key_ g /\
  ps_kv_ g' = ps_kv_ g.
Proof.
  unfold Init. destruct (_initialized g); [by intros [= <-]|].
  destruct env as [text|]; [destruct (Libc.atoi text)|];
    outcome_simpl; try discriminate;
    (destruct (create_queues _ _ _) as [g3| | |] eqn:Hq;
     outcome_simpl; try discriminate;
     intros [= <-]; apply create_queues_frame in Hq as [qs ->];
     by repeat split).
Qed.

Lemma EncodeDefaultKey_writes_one_entry krs key len g pskv g' :
  EncodeDefaultKey krs key len g = Ok (pskv, g') ->
  g' = set_ps_kv (<[key := pskv]> (ps_kv_ g)) g.
Proof.
  unfold EncodeDefaultKey. intros H.
  destruct (keys (default empty_pskv (ps_kv_ g !! key))).
  - destruct (0 <? _); [|discriminate].
    destruct (in_int_range _); [|discriminate].
    destruct (if 0 <=? _ then _ else _) as [[b e]|]; [|discriminate].
    destruct (_ <? e); [|discriminate]. by injection H as <- <-.
  - destruct (_ =? len); [|discriminate]. by injection H as <- <-.
Qed.

Lemma iota_keys_elem k n x :
  0 <= k -> k + Z.of_nat n <= 2 ^ 32 ->
  x ∈ iota_keys k n -> k <= x < k + Z.of_nat n.
Proof.
  intros Hk Hn Hin. apply list_elem_of_lookup in Hin as [i Hi].
  apply (iota_keys_no_wrap k n i x Hk Hn) in Hi as [-> Hlt]. lia.
Qed.

(** X13: every key found in a key list of the registry is a value the
  counter has already passed.  This holds in the initial state, and Init,
  [GetContextFromName], [EncodeDefaultKey] and every registration that
  keeps the counter below 2^32 preserve it. *)
Theorem X13_stored_keys_stay_below_the_counter :
  (forall P, keys_below (initial_state P)) /\
  (forall P env comm g g',
     keys_below g -> Init P env comm g = Ok g' -> keys_below g') /\
  (forall name g, keys_below g -> keys_below (GetContextFromName name g).2) /\
  (forall krs key len g pskv g',
     keys_below g -> EncodeDefaultKey krs key len g = Ok (pskv, g') ->
     keys_below g') /\
  (forall P fuel name size device dtype g b g' trace,
     keys_below g -> 0 <= next_key_ g < 2 ^ 32 ->
     IsTensorInitialized_traced P fuel name size device dtype g
       = Ok (b, g', trace) ->
     next_key_ g + Z.of_nat (length trace) < 2 ^ 32 ->
     keys_below g').
Proof.
  split; [|split; [|split; [|split]]].
  - intros P name ctx k Hctx. cbn [initial_state _name_to_cxt] in Hctx.
    by rewrite lookup_empty in Hctx.
  - intros P env comm g g' Hinv Hinit.
    apply Init_keeps_registry in Hinit as (Hm & Hk & _).
    intros name ctx k. rewrite Hm, Hk. apply Hinv.
  - intros name g Hinv other ctx k.
    unfold GetContextFromName, context_at.
    cbn [snd set_name_to_cxt _name_to_cxt next_key_].
    destruct (decide (name = other)) as [<-|Hne].
    + rewrite lookup_insert_eq. intros [= <-].
      destruct (_name_to_cxt g !! name) as [c|] eqn:Hc;
        cbn [default from_option id].
      * by apply (Hinv name).
      * cbn [empty_context key_list]. by intros ?%elem_of_nil.
    + rewrite lookup_insert_ne by exact Hne. apply Hinv.
  - intros krs key len g pskv g' Hinv Hrun.
    apply EncodeDefaultKey_writes_one_entry in Hrun as ->. exact Hinv.
  - intros P fuel name size device dtype g b g' trace Hinv Hk Hrun Hwrap.
    destruct (traced_cases P _ _ _ _ _ _ _ _ _ Hrun)
      as [(_ & -> & _)|[-> Hfresh]]; [exact Hinv|].
    destruct (registration_effect P _ _ _ _ _ _ _ _ Hk Hfresh Hrun)
      as (_ & Hkeys & -> & _).
    intros other ctx k.
    cbn [set_next_key set_name_to_cxt _name_to_cxt next_key_].
    rewrite wrap32_small by lia.
    destruct (decide (name = other)) as [<-|Hne].
    + rewrite lookup_insert_eq. intros [= <-]. cbn [key_list].
      rewrite Hkeys. intros Hin.
      apply iota_keys_elem in Hin; lia.
    + rewrite lookup_insert_ne by exact Hne. intros Hctx Hin.
      pose proof (Hinv other ctx k Hctx Hin). lia.
Qed.

(** X14: no partition key belongs to two tensors.  When the stored keys lie
  below the counter and a first registration keeps the counter within
  2^32, the key list of the new tensor has no repeated key and shares no
  key with the key list of any other tensor. *)
Theorem X14_no_key_is_shared_between_tensors
  P fuel name size device dtype g g' trace :
  keys_below g ->
  0 <= next_key_ g < 2 ^ 32 ->
  _name_to_cxt g !! name = None ->
  IsTensorInitialized_traced P fuel name size device dtype g
    = Ok (false, g', trace) ->
  next_key_ g + Z.of_nat (length trace) <= 2 ^ 32 ->
  exists ctx,
    _name_to_cxt g' !! name = Some ctx /\
    NoDup (key_list ctx) /\
    (forall other ctx' k,
       name <> other -> _name_to_cxt g' !! other = Some ctx' ->
       k ∈ key_list ctx' -> k ∉ key_list ctx).
Proof.
  intros Hinv Hk Hfresh Hrun Hwrap.
  destruct (registration_effect P _ _ _ _ _ _ _ _ Hk Hfresh Hrun)
    as (_ & Hkeys & -> & _).
  eexists. split.
  { cbn [set_next_key set_name_to_cxt _name_to_cxt]. apply lookup_insert_eq. }
  cbn [key_list]. rewrite Hkeys. split.
  - apply NoDup_alt. intros i j x Hi Hj.
    apply (iota_keys_no_wrap _ _ _ _ (proj1 Hk) Hwrap) in Hi as [-> _].
    apply (iota_keys_no_wrap _ _ _ _ (proj1 Hk) Hwrap) in Hj as [Heq _]. lia.
  - intros other ctx' k Hne.
    cbn [set_next_key set_name_to_cxt _name_to_cxt].
    rewrite lookup_insert_ne by exact Hne. intros Hctx Hin Hnew.
    pose proof (Hinv other ctx' k Hctx Hin).
    apply iota_keys_elem in Hnew; lia.
Qed.

Lemma X7_tensor_within_int_range_is_covered_witness :
  _name_to_cxt (initial_state example_platform) !! "grad1"%string = None /\
  0 < bound_in_effect BYTEPS_FLOAT32 (initial_state example_platform) /\
  0 < 3000000 <= INT_MAX /\
  exists g' trace ctx,
    IsTensorInitialized_traced example_platform 10 "grad1" 3000000 0
      BYTEPS_FLOAT32 (initial_state example_platform) = Ok (false, g', trace) /\
    _name_to_cxt g' !! "grad1"%string = Some ctx /\
    Z.of_nat (length (key_list ctx)) = 2 /\
    total trace.*2 = 3000000.
Proof.
  split; [reflexivity|]. split; [reflexivity|].
  split; [unfold INT_MAX; lia|].
  destruct (X7_tensor_within_int_range_is_covered example_platform 10 "grad1"
              3000000 0 BYTEPS_FLOAT32 (initial_state example_platform))
    as (g' & trace & ctx & Hrun & Hctx & _ & Hcount & Hsum & _).
  - reflexivity.
  - vm_compute. split; [discriminate|reflexivity].
  - reflexivity.
  - unfold INT_MAX. lia.
  - right. vm_compute. eauto.
  - vm_compute. lia.
  - exists g', trace, ctx. split; [exact Hrun|]. split; [exact Hctx|].
    split; [exact Hcount|exact Hsum].
Defined.

Lemma X8_first_registration_returns_iff_bound_positive_witness :
  _name_to_cxt (initial_state example_platform) !! "grad0"%string = None /\
  0 < 1000000 < 2 ^ 64 /\
  0 <= bound_in_effect BYTEPS_FLOAT32 (initial_state example_platform) < 2 ^ 32 /\
  exists fuel g',
    IsTensorInitialized example_platform fuel "grad0" 1000000 (-1)
      BYTEPS_FLOAT32 (initial_state example_platform) = Ok (false, g').
Proof.
  split; [reflexivity|]. split; [lia|].
  split; [vm_compute; split; [discriminate|reflexivity]|].
  apply (X8_first_registration_returns_iff_bound_positive example_platform
           "grad0" 1000000 (-1) BYTEPS_FLOAT32 (initial_state example_platform)).
  - reflexivity.
  - lia.
  - vm_compute; split; [discriminate|reflexivity].
  - by left.
  - reflexivity.
Defined.

Lemma X9_registration_touches_only_its_tensor_witness :
  exists g1 g2,
    IsTensorInitialized example_platform 10 "grad0" 1000000 (-1)
      BYTEPS_FLOAT32 (initial_state example_platform) = Ok (false, g1) /\
    IsTensorInitialized example_platform 10 "grad1" 3000000 0
      BYTEPS_FLOAT32 g1 = Ok (false, g2) /\
    _name_to_cxt g2 !! "grad0"%string = _name_to_cxt g1 !! "grad0"%string /\
    ps_kv_ g2 = ps_kv_ g1.
Proof.
  do 2 eexists. split; [vm_compute; reflexivity|].
  split; [vm_compute; reflexivity|].
  match goal with
  | |- _ /\ ps_kv_ ?g2 = ps_kv_ ?g1 =>
      destruct (X9_registration_touches_only_its_tensor example_platform 10
                  "grad1" 3000000 0 BYTEPS_FLOAT32 g1 false g2
                  ltac:(vm_compute; reflexivity))
        as ((_ & _ & _ & _ & _ & _ & Hkv & _) & Hother)
  end.
  split; [apply Hother; discriminate|exact Hkv].
Defined.

Lemma X10_first_dtype_fixes_the_byte_bound_witness :
  exists g1 trace1 g2 issued,
    next_key_ (initial_state example_platform) = 0 /\
    IsTensorInitialized_traced example_platform 10 "half" 1000 (-1)
      BYTEPS_FLOAT16 (initial_state example_platform)
      = Ok (false, g1, trace1) /\
    register_all example_platform 10
      [mkRegistration "double" 3000000 (-1) BYTEPS_FLOAT64;
       mkRegistration "byte" 5 (-1) BYTEPS_UINT8;
       mkRegistration "half" 1000 (-1) BYTEPS_FLOAT16] g1
      = Ok (g2, issued) /\
    Z.of_nat (length trace1) + Z.of_nat (length issued) < 2 ^ 32 /\
    _partition_bound g1 = 1024000 /\
    _partition_bound g2 = 1024000.
Proof.
  do 4 eexists. split; [reflexivity|].
  split; [vm_compute; reflexivity|].
  split; [vm_compute; reflexivity|].
  split; [vm_compute; reflexivity|].
  eapply (X10_first_dtype_fixes_the_byte_bound example_platform
            10 "half" 1000 (-1) BYTEPS_FLOAT16 (initial_state example_platform)
            _ _ 10
            [mkRegistration "double" 3000000 (-1) BYTEPS_FLOAT64;
             mkRegistration "byte" 5 (-1) BYTEPS_UINT8;
             mkRegistration "half" 1000 (-1) BYTEPS_FLOAT16]);
    [reflexivity | vm_compute; reflexivity | vm_compute; reflexivity
    | vm_compute; reflexivity].
Defined.

Lemma X11_lookup_returns_what_registration_stored_witness :
  exists g' trace,
    0 <= next_key_ (initial_state example_platform) < 2 ^ 32 /\
    _name_to_cxt (initial_state example_platform) !! "grad1"%string = None /\
    IsTensorInitialized_traced example_platform 10 "grad1" 3000000 0
      BYTEPS_FLOAT32 (initial_state example_platform) = Ok (false, g', trace) /\
    GetContextFromName "grad1" g'
      = (mkContext [0; 1] (Some 4096) 3000000, g') /\
    GetTensorCount g' = 1.
Proof.
  do 2 eexists.
  split; [vm_compute; split; [discriminate|reflexivity]|].
  split; [reflexivity|]. split; [vm_compute; reflexivity|].
  edestruct (X11_lookup_returns_what_registration_stored example_platform 10
               "grad1" 3000000 0 BYTEPS_FLOAT32
               (initial_state example_platform))
    as (Hget & _ & _ & _ & _ & Hcount);
    [vm_compute; split; [discriminate|reflexivity] | reflexivity
    | vm_compute; reflexivity |].
  split; [exact Hget|exact Hcount].
Defined.

Lemma X12_keys_of_a_tensor_are_consecutive_witness :
  exists g1 g' trace ctx,
    IsTensorInitialized example_platform 10 "grad0" 1000000 (-1)
      BYTEPS_FLOAT32 (initial_state example_platform) = Ok (false, g1) /\
    0 <= next_key_ g1 < 2 ^ 32 /\
    _name_to_cxt g1 !! "grad1"%string = None /\
    IsTensorInitialized_traced example_platform 10 "grad1" 5000000 0
      BYTEPS_FLOAT32 g1 = Ok (false, g', trace) /\
    next_key_ g1 + Z.of_nat (length trace) <= 2 ^ 32 /\
    _name_to_cxt g' !! "grad1"%string = Some ctx /\
    head (key_list ctx) = Some 1 /\
    last (key_list ctx) = Some 3.
Proof.
  do 4 eexists. split; [vm_compute; reflexivity|].
  split; [vm_compute; split; [discriminate|reflexivity]|].
  split; [vm_compute; reflexivity|].
  split; [vm_compute; reflexivity|].
  split; [vm_compute; discriminate|].
  split; [vm_compute; reflexivity|].
  match goal with
  | |- head (key_list ?c) = _ /\ _ =>
      let r := eval vm_compute in
        (IsTensorInitialized example_platform 10 "grad0" 1000000 (-1)
           BYTEPS_FLOAT32 (initial_state example_platform)) in
      match r with
      | Ok (_, ?g1) =>
          let r2 := eval vm_compute in
            (IsTensorInitialized_traced example_platform 10 "grad1" 5000000 0
               BYTEPS_FLOAT32 g1) in
          match r2 with
          | Ok (_, ?g2, ?tr) =>
              destruct (X12_keys_of_a_tensor_are_consecutive example_platform
                          10 "grad1" 5000000 0 BYTEPS_FLOAT32 g1 g2 tr
                          ltac:(vm_compute; split; [discriminate|reflexivity])
                          ltac:(vm_compute; reflexivity)
                          ltac:(vm_compute; reflexivity)
                          ltac:(vm_compute; discriminate))
                as (ctx & Hctx & _ & _ & Hhead & Hlast & _)
          end
      end
  end.
  vm_compute in Hctx. injection Hctx as <-.
  split; [exact Hhead|exact Hlast].
Defined.

Lemma X13_stored_keys_stay_below_the_counter_witness :
  exists g' trace,
    0 <= next_key_ (initial_state example_platform) < 2 ^ 32 /\
    IsTensorInitialized_traced example_platform 10 "grad1" 3000000 0
      BYTEPS_FLOAT32 (initial_state example_platform) = Ok (false, g', trace) /\
    next_key_ (initial_state example_platform) + Z.of_nat (length trace)
      < 2 ^ 32 /\
    keys_below g'.
Proof.
  do 2 eexists.
  split; [vm_compute; split; [discriminate|reflexivity]|].
  split; [vm_compute; reflexivity|].
  split; [vm_compute; reflexivity|].
  destruct X13_stored_keys_stay_below_the_counter
    as (Hinit & _ & _ & _ & Hreg).
  eapply (Hreg example_platform 10%nat "grad1"%string 3000000 0
            BYTEPS_FLOAT32 (initial_state example_platform) false).
  - apply Hinit.
  - vm_compute; split; [discriminate|reflexivity].
  - vm_compute; reflexivity.
  - vm_compute; reflexivity.
Defined.

Lemma X14_no_key_is_shared_between_tensors_witness :
  exists g' trace ctx,
    keys_below (initial_state example_platform) /\
    _name_to_cxt (initial_state example_platform) !! "grad1"%string = None /\
    IsTensorInitialized_traced example_platform 10 "grad1" 3000000 0
      BYTEPS_FLOAT32 (initial_state example_platform) = Ok (false, g', trace) /\
    next_key_ (initial_state example_platform) + Z.of_nat (length trace)
      <= 2 ^ 32 /\
    _name_to_cxt g' !! "grad1"%string = Some ctx /\
    NoDup (key_list ctx).
Proof.
  assert (Hbelow : keys_below (initial_state example_platform)).
  { intros name ctx k Hctx. cbn [initial_state _name_to_cxt] in Hctx.
    by rewrite lookup_empty in Hctx. }
  edestruct (X14_no_key_is_shared_between_tensors example_platform 10
               "grad1" 3000000 0 BYTEPS_FLOAT32
               (initial_state example_platform))
    as (ctx & Hctx & Hnodup & _);
    [ exact Hbelow | vm_compute; split; [discriminate|reflexivity]
    | reflexivity | vm_compute; reflexivity | vm_compute; discriminate | ].
  do 2 eexists. exists ctx.
  split; [exact Hbelow|]. split; [reflexivity|].
  split; [vm_compute; reflexivity|]. split; [vm_compute; discriminate|].
  split; [exact Hctx|exact Hnodup].
Defined.

(** ** More on key-to-server encoding *)

Lemma EncodeDefaultKey_stores krs key len g pskv g' :
  keys (default empty_pskv (ps_kv_ g !! key)) = [] ->
  EncodeDefaultKey krs key len g = Ok (pskv, g') ->
  ps_kv_ g' !! key = Some pskv /\
  (exists wire_key, keys pskv = [wire_key]) /\
  size pskv = to_int len.
Proof.
  intros Hfresh Hrun. unfold EncodeDefaultKey in Hrun. rewrite Hfresh in Hrun.
  destruct (0 <? _); [|discriminate].
  destruct (in_int_range _); [|discriminate].
  destruct (if 0 <=? _ then _ else _) as [[b e]|]; [|discriminate].
  destruct (_ <? e); [|discriminate]. injection Hrun as <- <-.
  cbn [set_ps_kv ps_kv_ keys size app]. rewrite lookup_insert_eq. eauto.
Qed.

(** The outcome for a key depends on the entry of that key alone. *)
Lemma EncodeDefaultKey_local krs key len g h :
  ps_kv_ h !! key = ps_kv_ g !! key ->
  EncodeDefaultKey krs key len h =
    match EncodeDefaultKey krs key len g with
    | Ok (pskv, _) => Ok (pskv, set_ps_kv (<[key := pskv]> (ps_kv_ h)) h)
    | Fatal e => Fatal e
    | Undefined => Undefined
    | OutOfFuel => OutOfFuel
    end.
Proof.
  intros Heq. unfold EncodeDefaultKey. rewrite Heq.
  destruct (keys (default empty_pskv (ps_kv_ g !! key))).
  - destruct (0 <? _); [|reflexivity].
    destruct (in_int_range _); [|reflexivity].
    destruct (if 0 <=? _ then _ else _) as [[b e]|]; [|reflexivity].
    by destruct (_ <? e).
  - by destruct (_ =? len).
Qed.

(** X15: the length of a value cannot change.  Once a key has been encoded
  with a length that fits an [int], a call for the same key with any other
  length fails the size check and is fatal, whatever key ranges are
  advertised at that time. *)
Theorem X15_changed_length_is_fatal krs krs2 key len len2 g pskv g' :
  keys (default empty_pskv (ps_kv_ g !! key)) = [] ->
  EncodeDefaultKey krs key len g = Ok (pskv, g') ->
  0 <= len <= INT_MAX -> len2 <> len ->
  EncodeDefaultKey krs2 key len2 g' = Fatal InvariantViolation.
Proof.
  intros Hfresh Hrun Hlen Hne.
  destruct (EncodeDefaultKey_stores _ _ _ _ _ _ Hfresh Hrun)
    as (Hstored & [w Hkeys] & Hsize).
  rewrite (EncodeDefaultKey_known krs2 key len2 g' pskv w [] Hstored Hkeys).
  rewrite Hsize, to_int_small by exact Hlen.
  rewrite wrap64_small by (unfold INT_MAX in Hlen; lia).
  destruct (Z.eqb_spec len len2); [congruence|reflexivity].
Qed.

(** X16: the two checks of a first encoding.  With no server advertised the
  call is fatal.  With servers, a key whose product with 9973 fits an
  [int], and a range start that leaves the 64-bit sum unwrapped, the call
  is fatal exactly when range start plus key reaches the range end of the
  chosen server, and returns otherwise. *)
Theorem X16_first_encoding_checks krs key len g range_begin range_end :
  keys (default empty_pskv (ps_kv_ g !! key)) = [] ->
  0 <= key -> key * 9973 <= INT_MAX ->
  0 < Z.of_nat (length krs) <= INT_MAX ->
  krs !! Z.to_nat ((key * 9973) mod Z.of_nat (length krs))
    = Some (range_begin, range_end) ->
  0 <= range_begin -> range_begin + key < 2 ^ 64 ->
  EncodeDefaultKey [] key len g = Fatal InvariantViolation /\
  (range_end <= range_begin + key <->
   EncodeDefaultKey krs key len g = Fatal InvariantViolation) /\
  (range_begin + key < range_end <->
   exists pskv g', EncodeDefaultKey krs key len g = Ok (pskv, g')).
Proof.
  intros Hfresh Hkey Hprod Hn Hrange Hb Hsum.
  split; [unfold EncodeDefaultKey; by rewrite Hfresh|].
  rewrite (EncodeDefaultKey_fresh krs key len g range_begin range_end
             Hfresh Hkey Hprod Hn Hrange).
  rewrite wrap64_small by lia.
  destruct (Z.ltb_spec (range_begin + key) range_end); split; split;
    try lia; try discriminate; try done.
  - eauto.
  - intros (? & ? & ?). discriminate.
Qed.


(** X18: keys are encoded independently of one another, and encoding does
  not reach into the registry.  A call that returns writes the entry of
  its key and nothing else: the registry, the key counter and the bound
  stay, and so does the entry of every other key; the outcome of encoding
  another key afterwards is the outcome it would have had before. *)
Theorem X18_encoding_one_key_leaves_the_others krs key len g pskv g' :
  EncodeDefaultKey krs key len g = Ok (pskv, g') ->
  _name_to_cxt g' = _name_to_cxt g /\
  next_key_ g' = next_key_ g /\
  _partition_bound g' = _partition_bound g /\
  _queues g' = _queues g /\
  (forall other, other <> key -> ps_kv_ g' !! other = ps_kv_ g !! other) /\
  (forall other krs2 len2, other <> key ->
     EncodeDefaultKey krs2 other len2 g' =
       match EncodeDefaultKey krs2 other len2 g with
       | Ok (pskv2, _) =>
           Ok (pskv2, set_ps_kv (<[other := pskv2]> (ps_kv_ g')) g')
       | Fatal e => Fatal e
       | Undefined => Undefined
       | OutOfFuel => OutOfFuel
       end).
Proof.
  intros Hrun. apply EncodeDefaultKey_writes_one_entry in Hrun as ->.
  assert (Hother : forall other, other <> key ->
            ps_kv_ (set_ps_kv (<[key:=pskv]> (ps_kv_ g)) g) !! other
            = ps_kv_ g !! other).
  { intros other Hne. cbn [set_ps_kv ps_kv_]. by rewrite lookup_insert_ne. }
  split; [reflexivity|]. split; [reflexivity|]. split; [reflexivity|].
  split; [reflexivity|]. split; [exact Hother|].
  intros other krs2 len2 Hne. apply EncodeDefaultKey_local. by apply Hother.
Qed.

Lemma X15_changed_length_is_fatal_witness :
  exists pskv g',
    keys (default empty_pskv
            (ps_kv_ (initial_state example_platform) !! 7)) = [] /\
    EncodeDefaultKey three_servers 7 4096 (initial_state example_platform)
      = Ok (pskv, g') /\
    0 <= 4096 <= INT_MAX /\ 8192 <> 4096 /\
    EncodeDefaultKey three_servers 7 8192 g' = Fatal InvariantViolation.
Proof.
  do 2 eexists. split; [reflexivity|]. split; [vm_compute; reflexivity|].
  split; [unfold INT_MAX; lia|]. split; [lia|].
  eapply (X15_changed_length_is_fatal three_servers three_servers 7 4096 8192
            (initial_state example_platform));
    [reflexivity | vm_compute; reflexivity | unfold INT_MAX; lia | lia].
Defined.

Lemma X16_first_encoding_checks_witness :
  keys (default empty_pskv (ps_kv_ (initial_state example_platform) !! 7)) = [] /\
  7 * 9973 <= INT_MAX /\
  [(0, 5); (5, 10); (10, 15)] !! Z.to_nat ((7 * 9973) mod 3) = Some (5, 10) /\
  10 <= 5 + 7 /\
  EncodeDefaultKey [(0, 5); (5, 10); (10, 15)] 7 4096
    (initial_state example_platform) = Fatal InvariantViolation.
Proof.
  split; [reflexivity|]. split; [unfold INT_MAX; lia|].
  split; [reflexivity|]. split; [lia|].
  apply (X16_first_encoding_checks [(0, 5); (5, 10); (10, 15)] 7 4096
           (initial_state example_platform) 5 10);
    [reflexivity | lia | unfold INT_MAX; lia | unfold INT_MAX; simpl; lia
    | reflexivity | lia | lia | lia].
Defined.


Lemma X18_encoding_one_key_leaves_the_others_witness :
  exists pskv g',
    EncodeDefaultKey three_servers 7 4096 (initial_state example_platform)
      = Ok (pskv, g') /\
    ps_kv_ g' !! 8 = None /\
    _name_to_cxt g' = ∅.
Proof.
  do 2 eexists. split; [vm_compute; reflexivity|].
  edestruct (X18_encoding_one_key_leaves_the_others three_servers 7 4096
               (initial_state example_platform))
    as (Hreg & _ & _ & _ & Hother & _); [vm_compute; reflexivity|].
  split; [rewrite Hother by lia; reflexivity|exact Hreg].
Defined.
